(** * The beam solver of [src/civil/beam_analysis.py]

    Shallow embedding of [_calculate_reactions_simply_supported],
    [_calculate_reactions_cantilever] and [solve_beam].

    Numbers.  Python floats and numpy [float64] values are modelled as exact
    rationals in canonical form ([Qc]), so that two numbers are equal exactly
    when they are Leibniz equal.  Rounding is not modelled: every identity
    proved below is the exact-arithmetic identity that the float computation
    approximates.  numpy divisions by zero (which produce [inf]/[nan] and no
    exception) are modelled by [Qc] division, which returns [0] there; Python
    float divisions, which raise [ZeroDivisionError], are modelled by
    [py_div].

    Errors.  The exceptions the code raises are the constructors of [error];
    [result] is the error monad threaded through the solver. *)

From Stdlib Require Import QArith Qcanon Qround Qabs ZArith List Ascii String Bool Lia Permutation DecimalString.
Import ListNotations.

(* ------------------------------------------------------------------------- *)
(** ** Numbers *)

Local Open Scope Qc_scope.

Definition qc (a : Q) : Qc := Q2Qc a.
Definition qc_of_Z (z : Z) : Qc := Q2Qc (inject_Z z).
Definition qc_of_nat (n : nat) : Qc := qc_of_Z (Z.of_nat n).

(** Python/numpy comparisons of two numbers. *)
Definition eq_b (a b : Qc) : bool := Qeq_bool a b.
Definition ge_b (a b : Qc) : bool := Qle_bool b a.
Definition lt_b (a b : Qc) : bool := negb (Qle_bool b a).
Definition abs (a : Qc) : Qc := Q2Qc (Qabs a).

(** [int(a)] truncates toward zero. *)
Definition py_int (a : Qc) : Z :=
  if Qle_bool 0 a then Qfloor a else (- Qfloor (Qopp a))%Z.

(* ------------------------------------------------------------------------- *)
(** ** Python values, exceptions and the error monad *)

(** A value stored in the [properties] mapping: [PyFloat v] stands for any
    value that [float()] accepts (a number or a numeric string) together with
    the float it yields; [PyNone] is [None]; [PyUnconvertible] stands for any
    other value that [float()] rejects (a non-numeric string, a list, ...). *)
Inductive pyval := PyFloat (v : Qc) | PyNone | PyUnconvertible.

(** The three keys of [properties] that [solve_beam] reads; [None] is an
    absent key. *)
Record properties := {
  prop_length : option pyval;
  prop_E : option pyval;
  prop_I : option pyval
}.

(** The raise sites of [AnalysisError], one constructor per message. *)
Inductive analysis_msg :=
| InvalidBeamProperty                          (* line 80 *)
| SupportsSamePosition                         (* line 33 *)
| UnstableStructure                            (* lines 98-101 *)
| UnsupportedCombination (support_types : list string)  (* lines 104-107 *)
| EIUndefined                                  (* line 128 *)
| DeflectionSupportsSamePosition.              (* line 152 *)

Inductive error :=
| AnalysisError (m : analysis_msg)
| ZeroDivisionError
| ValueError
| TypeError
| IndexError
| StopIteration.

Inductive result (A : Type) := Ok (a : A) | Err (e : error).
Arguments Ok {A} a.
Arguments Err {A} e.

Definition bind {A B} (r : result A) (k : A -> result B) : result B :=
  match r with Ok a => k a | Err e => Err e end.

Notation "'let*' x ':=' r 'in' k" := (bind r (fun x => k))
  (at level 200, x name, r at level 100, k at level 200).

(** [dict.get(key, default)] *)
Definition get (o : option pyval) (default : pyval) : pyval :=
  match o with Some v => v | None => default end.

(** [float(v)] *)
Definition py_float (v : pyval) : result Qc :=
  match v with
  | PyFloat q => Ok q
  | PyNone => Err TypeError
  | PyUnconvertible => Err ValueError
  end.

(** [v is None] *)
Definition is_none (v : pyval) : bool :=
  match v with PyNone => true | _ => false end.

(** Python float division [a / b]. *)
Definition py_div (a b : Qc) : result Qc :=
  if eq_b b 0 then Err ZeroDivisionError else Ok (a / b).

(* ------------------------------------------------------------------------- *)
(** ** Supports and loads *)

Record support := { s_type : string; s_position : Qc }.

Inductive load :=
| Point (magnitude position : Qc)
| Distributed (magnitude start stop : Qc).

(** [next((s['position'] for s in supports if s['type'] == ty), ...)] *)
Definition next_position (ty : string) (supports : list support) : option Qc :=
  match find (fun s => String.eqb (s_type s) ty) supports with
  | Some s => Some (s_position s)
  | None => None
  end.

Definition next_position_or (ty : string) (supports : list support) (d : Qc) : Qc :=
  match next_position ty supports with Some p => p | None => d end.

(** A Python dict from positions to reaction forces, as an association list
    in insertion order; setting an existing key keeps its place. *)
Fixpoint dict_set (k v : Qc) (d : list (Qc * Qc)) : list (Qc * Qc) :=
  match d with
  | [] => [(k, v)]
  | (k', v') :: t => if eq_b k k' then (k', v) :: t else (k', v') :: dict_set k v t
  end.

Definition dict_of (kvs : list (Qc * Qc)) : list (Qc * Qc) :=
  fold_left (fun d kv => dict_set (fst kv) (snd kv) d) kvs [].

(** One iteration of the load loop shared by both reaction solvers (lines
    17-29 and 48-60, identical up to the pivot [pinned_pos] / [fixed_pos]):
    the accumulator is [(total_force, total_moment)]. *)
Definition accumulate_load (pivot : Qc) (acc : Qc * Qc) (l : load) : Qc * Qc :=
  let '(total_force, total_moment) := acc in
  match l with
  | Point mag pos =>
      (total_force + mag, total_moment + mag * (pos - pivot))
  | Distributed mag start stop =>
      let load_length := stop - start in
      let resultant_force := mag * load_length in
      let resultant_position := start + load_length / qc 2 in
      (total_force + resultant_force,
       total_moment + resultant_force * (resultant_position - pivot))
  end.

Definition load_totals (pivot : Qc) (loads : list load) : Qc * Qc :=
  fold_left (accumulate_load pivot) loads (0, 0).

(** [_calculate_reactions_simply_supported] (lines 9-39). *)
Definition calculate_reactions_simply_supported (length : Qc)
    (supports : list support) (loads : list load) : result (list (Qc * Qc) * Qc) :=
  let pinned_pos := next_position_or "pinned" supports 0 in
  let roller_pos := next_position_or "roller" supports length in
  let '(total_force, total_moment_about_pin) := load_totals pinned_pos loads in
  let effective_length := roller_pos - pinned_pos in
  if eq_b effective_length 0 then Err (AnalysisError SupportsSamePosition) else
  let* R_roller := py_div (- total_moment_about_pin) effective_length in
  let R_pin := - total_force - R_roller in
  Ok (dict_of [(pinned_pos, R_pin); (roller_pos, R_roller)], 0).

(** [_calculate_reactions_cantilever] (lines 41-66). *)
Definition calculate_reactions_cantilever (supports : list support)
    (loads : list load) : result (list (Qc * Qc) * Qc) :=
  match supports with
  | [] => Err IndexError
  | s0 :: _ =>
      let fixed_pos := s_position s0 in
      let '(total_force, total_moment_about_fixed) := load_totals fixed_pos loads in
      let R_fixed_force := - total_force in
      let M_fixed_reaction := - total_moment_about_fixed in
      Ok (dict_of [(fixed_pos, R_fixed_force)], M_fixed_reaction)
  end.

(* ------------------------------------------------------------------------- *)
(** ** numpy arrays *)

(** [np.linspace(start, stop, num)] with [endpoint=True]: [ValueError] for a
    negative [num]; otherwise sample [i] is [i * step + start] with
    [step = (stop - start) / (num - 1)] (numpy multiplies by [delta] itself
    when [num - 1 = 0]), and the last sample is set to [stop] when [num > 1]. *)
Definition linspace (start stop : Qc) (num : Z) : result (list Qc) :=
  if (num <? 0)%Z then Err ValueError else
  let div := (num - 1)%Z in
  let delta := stop - start in
  Ok (map (fun i =>
        if ((1 <? num) && (Z.of_nat i =? div))%Z then stop
        else if (0 <? div)%Z then qc_of_nat i * (delta / qc_of_Z div) + start
        else qc_of_nat i * delta + start)
      (seq 0 (Z.to_nat num))).

(** Element-wise [u + v], [u - v] and [v * s]. *)
Fixpoint vadd (u v : list Qc) : list Qc :=
  match u, v with
  | a :: u', b :: v' => (a + b) :: vadd u' v'
  | _, _ => []
  end.

Fixpoint vsub (u v : list Qc) : list Qc :=
  match u, v with
  | a :: u', b :: v' => (a - b) :: vsub u' v'
  | _, _ => []
  end.

Definition vscale (v : list Qc) (s : Qc) : list Qc := map (fun a => a * s) v.

(** [np.cumsum] *)
Fixpoint cumsum_from (acc : Qc) (v : list Qc) : list Qc :=
  match v with
  | [] => []
  | a :: t => (acc + a) :: cumsum_from (acc + a) t
  end.

Definition cumsum (v : list Qc) : list Qc := cumsum_from 0 v.

(** [np.argmin]: index of the first minimum; [ValueError] on an empty array. *)
Fixpoint argmin_from (v : list Qc) (i best_i : nat) (best : Qc) : nat :=
  match v with
  | [] => best_i
  | a :: t =>
      if lt_b a best then argmin_from t (S i) i a else argmin_from t (S i) best_i best
  end.

Definition argmin (v : list Qc) : result nat :=
  match v with
  | [] => Err ValueError
  | a :: t => Ok (argmin_from t 1 0 a)
  end.

(** [np.where(x >= pos, mag, 0)] *)
Definition heaviside (x : list Qc) (pos mag : Qc) : list Qc :=
  map (fun xi => if ge_b xi pos then mag else 0) x.

(* ------------------------------------------------------------------------- *)
(** ** [solve_beam] (lines 69-167) *)

(** Support-type bookkeeping: [sorted] on strings (insertion sort, ordered
    as Python orders ASCII strings), list equality and [in]. *)
Fixpoint insert_sorted (s : string) (l : list string) : list string :=
  match l with
  | [] => [s]
  | h :: t => if String.leb s h then s :: l else h :: insert_sorted s t
  end.

Definition sorted (l : list string) : list string := fold_right insert_sorted [] l.

Fixpoint strings_eqb (l1 l2 : list string) : bool :=
  match l1, l2 with
  | [], [] => true
  | a :: t1, b :: t2 => String.eqb a b && strings_eqb t1 t2
  | _, _ => false
  end.

Definition str_in (s : string) (l : list string) : bool := existsb (String.eqb s) l.

Record beam_properties := { length : Qc; E : Qc; I : Qc }.

(** Lines 75-80: [float(properties.get(key, default))] for the three keys;
    a [ValueError] or [TypeError] becomes the [AnalysisError] of line 80. *)
Definition read_properties (properties : properties) : result beam_properties :=
  match
    (let* length := py_float (get (prop_length properties) (PyFloat (qc 10))) in
     let* E := py_float (get (prop_E properties) (PyFloat (qc 200000000000))) in
     let* I := py_float (get (prop_I properties) (PyFloat (qc (83 # 1000000)))) in
     Ok {| length := length; E := E; I := I |})
  with
  | Err ValueError | Err TypeError => Err (AnalysisError InvalidBeamProperty)
  | r => r
  end.

Record grid := { num_points : Z; x : list Qc; dx : Qc }.

(** Lines 82-84. *)
Definition make_grid (length : Qc) : result grid :=
  let num_points := (py_int (length * qc 200) + 1)%Z in
  let* x := linspace 0 length num_points in
  let* dx := py_div length (qc_of_Z (num_points - 1)) in
  Ok {| num_points := num_points; x := x; dx := dx |}.

(** Lines 87-107: recognise the support pattern and compute the reactions
    and the initial moment. *)
Definition is_cantilever (supports : list support) : bool :=
  strings_eqb (sorted (map s_type supports)) ["fixed"%string] && (List.length supports =? 1)%nat.

Definition is_ss (supports : list support) : bool :=
  strings_eqb (sorted (map s_type supports)) ["pinned"%string; "roller"%string].

Definition reactions_of (length : Qc) (supports : list support) (loads : list load)
    : result (list (Qc * Qc) * Qc) :=
  let support_types := sorted (map s_type supports) in
  if is_ss supports then calculate_reactions_simply_supported length supports loads
  else if is_cantilever supports then calculate_reactions_cantilever supports loads
  else if negb (str_in "pinned"%string support_types) && negb (str_in "fixed"%string support_types)
  then Err (AnalysisError UnstableStructure)
  else Err (AnalysisError (UnsupportedCombination support_types)).

(** Lines 113-122: the shear array, one [V += ...] per reaction and load. *)
Definition add_reaction_shear (x : list Qc) (V : list Qc) (r : Qc * Qc) : list Qc :=
  vadd V (heaviside x (fst r) (snd r)).

Definition add_load_shear (x : list Qc) (V : list Qc) (l : load) : list Qc :=
  match l with
  | Point mag pos => vadd V (heaviside x pos mag)
  | Distributed mag start stop =>
      let V := vadd V (map (fun xi =>
                 if ge_b xi start && lt_b xi stop then mag * (xi - start) else 0) x) in
      vadd V (map (fun xi => if ge_b xi stop then mag * (stop - start) else 0) x)
  end.

Definition shear (x : list Qc) (reactions : list (Qc * Qc)) (loads : list load) : list Qc :=
  fold_left (add_load_shear x)  loads
    (fold_left (add_reaction_shear x) reactions (repeat 0 (List.length x))).

(** Everything [solve_beam] computes before the boundary conditions. *)
Record stages := {
  st_props : beam_properties;
  st_grid : grid;
  st_is_cantilever : bool;
  st_is_ss : bool;
  st_reactions : list (Qc * Qc);
  st_initial_moment : Qc;
  st_V : list Qc;
  st_M : list Qc;
  st_slope : list Qc;
  st_deflection_raw : list Qc
}.

(** Lines 75-133.  The test [E is None or I is None] of line 127 is applied
    to the floats [float()] returned, written [PyFloat E] and [PyFloat I].
    Line 130 divides by [E * I] with numpy, which the code allows to be [0]:
    there numpy yields [inf] or [nan] where the [Qc] division below yields
    [0].  [M_over_EI], [slope] and [deflection] are therefore faithful only
    when [E * I <> 0], and the statements below about their values assume
    it (identities that are the same computation in both, and statements
    about errors, do not need it). *)
Definition analyse (properties : properties) (supports : list support)
    (loads : list load) : result stages :=
  let* bp := read_properties properties in
  let* g := make_grid (length bp) in
  let* ri := reactions_of (length bp) supports loads in
  let '(reactions, initial_moment) := ri in
  let V := shear (x g) reactions loads in
  let M := vadd (repeat initial_moment (Z.to_nat (num_points g))) (vscale (cumsum V) (dx g)) in
  if is_none (PyFloat (E bp)) || is_none (PyFloat (I bp))
  then Err (AnalysisError EIUndefined) else
  let M_over_EI := map (fun m => m / (E bp * I bp)) M in
  let slope := vscale (cumsum M_over_EI) (dx g) in
  let deflection := vscale (cumsum slope) (dx g) in
  Ok {| st_props := bp; st_grid := g;
        st_is_cantilever := is_cantilever supports; st_is_ss := is_ss supports;
        st_reactions := reactions; st_initial_moment := initial_moment;
        st_V := V; st_M := M; st_slope := slope; st_deflection_raw := deflection |}.

(** Lines 136-156.  For a cantilever only a warning is logged. *)
Definition apply_boundary_conditions (supports : list support) (is_cantilever is_ss : bool)
    (x deflection : list Qc) : result (list Qc) :=
  if is_cantilever then Ok deflection
  else if is_ss then
    match next_position "pinned" supports, next_position "roller" supports with
    | Some pinned_pos, Some roller_pos =>
        let* idx_pin := argmin (map (fun xi => abs (xi - pinned_pos)) x) in
        let* idx_roller := argmin (map (fun xi => abs (xi - roller_pos)) x) in
        let y_pin_raw := nth idx_pin deflection 0 in
        let y_roller_raw := nth idx_roller deflection 0 in
        let x_pin := nth idx_pin x 0 in
        let x_roller := nth idx_roller x 0 in
        if eq_b (x_roller - x_pin) 0 then Err (AnalysisError DeflectionSupportsSamePosition) else
        let line_slope := (y_roller_raw - y_pin_raw) / (x_roller - x_pin) in
        let correction_line := map (fun xi => line_slope * (xi - x_pin) + y_pin_raw) x in
        Ok (vsub deflection correction_line)
    | _, _ => Err StopIteration
    end
  else Ok deflection.

(** One row of the returned DataFrame. *)
Record row := {
  Position_m : Qc;
  Shear_Force_N : Qc;
  Bending_Moment_Nm : Qc;
  Slope_rad : Qc;
  Deflection_m : Qc
}.

(** Lines 159-165: the DataFrame, one row per sample. *)
Definition dataframe (x V M slope deflection : list Qc) : list row :=
  map (fun i => {| Position_m := nth i x 0; Shear_Force_N := nth i V 0;
                   Bending_Moment_Nm := nth i M 0; Slope_rad := nth i slope 0;
                   Deflection_m := nth i deflection 0 |})
      (seq 0 (List.length x)).

Definition solve_beam (properties : properties) (supports : list support)
    (loads : list load) : result (list row) :=
  let* st := analyse properties supports loads in
  let* deflection := apply_boundary_conditions supports (st_is_cantilever st) (st_is_ss st)
                       (x (st_grid st)) (st_deflection_raw st) in
  Ok (dataframe (x (st_grid st)) (st_V st) (st_M st) (st_slope st) deflection).

(* ------------------------------------------------------------------------- *)
(** ** Readings of the specification used to state the claims *)

(** The resultant of a load and the position it acts at: a point load is its
    own resultant; a distributed load's resultant is [magnitude * (end - start)]
    acting at the midpoint [(start + end) / 2]. *)
Definition resultant_force (l : load) : Qc :=
  match l with
  | Point mag _ => mag
  | Distributed mag start stop => mag * (stop - start)
  end.

Definition resultant_position (l : load) : Qc :=
  match l with
  | Point _ pos => pos
  | Distributed _ start stop => (start + stop) / qc 2
  end.

(** [F_total] and the moment of all resultants about a point [q]. *)
Definition F_total (loads : list load) : Qc :=
  fold_right (fun l acc => resultant_force l + acc) 0 loads.

Definition M_about (q : Qc) (loads : list load) : Qc :=
  fold_right (fun l acc => resultant_force l * (resultant_position l - q) + acc) 0 loads.

Definition sum (v : list Qc) : Qc := fold_right Qcplus 0 v.

(** The contribution of one load to the shear at position [xi], as the spec
    describes it: a step of [m] at a point load; [m * (xi - start)] inside the
    span of a distributed load, read as [start <= xi < end] since the
    plateau [m * (end - start)] takes over from [end] on. *)
Definition spec_load_shear (xi : Qc) (l : load) : Qc :=
  match l with
  | Point mag pos => if ge_b xi pos then mag else 0
  | Distributed mag start stop =>
      (if ge_b xi start && lt_b xi stop then mag * (xi - start) else 0)
      + (if ge_b xi stop then mag * (stop - start) else 0)
  end.

Definition spec_reaction_shear (xi : Qc) (r : Qc * Qc) : Qc :=
  if ge_b xi (fst r) then snd r else 0.

(** The first stages of [solve_beam]: property conversion and the grid. *)
Definition prelude (properties : properties) : result grid :=
  let* bp := read_properties properties in make_grid (length bp).

Definition error_of {A} (r : result A) : option error :=
  match r with Ok _ => None | Err e => Some e end.

Definition with_EI (p : properties) (e i : Qc) : properties :=
  {| prop_length := prop_length p; prop_E := Some (PyFloat e); prop_I := Some (PyFloat i) |}.

(** The mapping with every absent key set to its default. *)
Definition fill_defaults (p : properties) : properties :=
  {| prop_length := Some (get (prop_length p) (PyFloat (qc 10)));
     prop_E := Some (get (prop_E p) (PyFloat (qc 200000000000)));
     prop_I := Some (get (prop_I p) (PyFloat (qc (83 # 1000000)))) |}.

Definition scale_load (c : Qc) (l : load) : load :=
  match l with
  | Point mag pos => Point (c * mag) pos
  | Distributed mag start stop => Distributed (c * mag) start stop
  end.

Definition scale_row (c : Qc) (r : row) : row :=
  {| Position_m := Position_m r; Shear_Force_N := c * Shear_Force_N r;
     Bending_Moment_Nm := c * Bending_Moment_Nm r; Slope_rad := c * Slope_rad r;
     Deflection_m := c * Deflection_m r |}.

(** The reactions and the stages of the analysis with every force scaled by
    [c]; positions and the grid are left unchanged. *)
Definition scale_dict (c : Qc) (d : list (Qc * Qc)) : list (Qc * Qc) :=
  map (fun kv => (fst kv, c * snd kv)) d.

Definition scale_stages (c : Qc) (st : stages) : stages :=
  {| st_props := st_props st; st_grid := st_grid st;
     st_is_cantilever := st_is_cantilever st; st_is_ss := st_is_ss st;
     st_reactions := scale_dict c (st_reactions st);
     st_initial_moment := c * st_initial_moment st;
     st_V := vscale (st_V st) c; st_M := vscale (st_M st) c;
     st_slope := vscale (st_slope st) c;
     st_deflection_raw := vscale (st_deflection_raw st) c |}.

Definition result_map {A B} (f : A -> B) (r : result A) : result B :=
  match r with Ok a => Ok (f a) | Err e => Err e end.

(** [k] is the first index of a minimum of [v]; [nearest_index x p k]: the
    sample [x_k] is the grid position nearest to [p] (the first one on a tie). *)
Definition first_min_index (v : list Qc) (k : nat) : Prop :=
  (k < List.length v)%nat
  /\ (forall j, (j < List.length v)%nat -> nth k v 0 <= nth j v 0)
  /\ (forall j, (j < k)%nat -> nth k v 0 < nth j v 0).

Definition nearest_index (x : list Qc) (p : Qc) (k : nat) : Prop :=
  first_min_index (map (fun xi => abs (xi - p)) x) k.

(** The straight line through [(x1, y1)] and [(x2, y2)], evaluated at [xi]. *)
Definition line_through (x1 y1 x2 y2 xi : Qc) : Qc := (y2 - y1) / (x2 - x1) * (xi - x1) + y1.

(** A key that is present with a value [float()] rejects. *)
Definition invalid_value (o : option pyval) : bool :=
  match o with Some PyNone | Some PyUnconvertible => true | _ => false end.

(** Concrete configurations. *)
Definition all_absent : properties := {| prop_length := None; prop_E := None; prop_I := None |}.

Definition with_values (len e i : Qc) : properties :=
  {| prop_length := Some (PyFloat len); prop_E := Some (PyFloat e); prop_I := Some (PyFloat i) |}.

Definition pinned (p : Qc) : support := {| s_type := "pinned"; s_position := p |}.
Definition roller (p : Qc) : support := {| s_type := "roller"; s_position := p |}.
Definition fixed (p : Qc) : support := {| s_type := "fixed"; s_position := p |}.

Definition beam (len : Qc) : properties :=
  {| prop_length := Some (PyFloat len); prop_E := None; prop_I := None |}.

(** The position from which a load adds its whole resultant to the shear:
    the position of a point load, the end of a distributed load. *)
Definition load_end (l : load) : Qc :=
  match l with
  | Point _ pos => pos
  | Distributed _ _ stop => stop
  end.

(** The shear contributions of the reactions and of the loads at [xi]. *)
Definition reaction_sum (xi : Qc) (reactions : list (Qc * Qc)) : Qc :=
  fold_right (fun r acc => spec_reaction_shear xi r + acc) 0 reactions.

Definition load_sum (xi : Qc) (loads : list load) : Qc :=
  fold_right (fun l acc => spec_load_shear xi l + acc) 0 loads.

(** Two rows at the same position added field by field. *)
Definition add_row (r1 r2 : row) : row :=
  {| Position_m := Position_m r1; Shear_Force_N := Shear_Force_N r1 + Shear_Force_N r2;
     Bending_Moment_Nm := Bending_Moment_Nm r1 + Bending_Moment_Nm r2;
     Slope_rad := Slope_rad r1 + Slope_rad r2; Deflection_m := Deflection_m r1 + Deflection_m r2 |}.

Definition add_rows (rows1 rows2 : list row) : list row :=
  map (fun rr => add_row (fst rr) (snd rr)) (combine rows1 rows2).

(* ------------------------------------------------------------------------- *)
(** * The caller: [run_pipeline] of [src/main.py]

    [run_pipeline(config, gui_mode)] (lines 13-93) with the output helpers it
    calls: [plot_line_chart] of [src/visualization/plotter.py] (lines 9-52),
    [save_output] and [save_html_report] of [src/reporting/reporter.py]
    (lines 135-147 and 98-132).

    The configuration values have the types the pipeline expects: strings
    where a name, a type, a path or a column is read, and the inputs of
    [solve_beam] as modelled above.  Python's [None] and an absent key are
    both [None] here: [config.get] does not tell them apart.  Logging is not
    modelled.  The file system is an environment: whether a directory exists,
    whether [os.makedirs] succeeds and whether a file can be written at a
    path.  Every write the helpers attempt sits in a [try] that only logs the
    failure, so a failed write leaves no file and raises nothing.  A file
    written is recorded as an event carrying the data it is made from (the
    table, the plot's columns and labels, the report's plot list); the
    rendered bytes (PNG, CSV, HTML) are not modelled. *)

(** [str(n)] for a natural number. *)
Definition string_of_nat (n : nat) : string := NilZero.string_of_uint (Nat.to_uint n).

(** Truthiness of a string value that may be [None]. *)
Definition py_str_truthy (o : option string) : bool :=
  match o with Some s => negb (String.eqb s EmptyString) | None => false end.

Definition str_default (o : option string) (d : string) : string :=
  match o with Some s => s | None => d end.

(** [os.path.join(a, b)] on POSIX. *)
Definition path_join (a b : string) : string :=
  if String.prefix "/" b then b
  else if String.eqb a EmptyString then b
  else if String.eqb (String.substring (String.length a - 1) 1 a) "/" then String.append a b
  else String.append a (String.append "/" b).

(** Setting [d[k] = v] on a dict with string keys, in insertion order. *)
Fixpoint str_dict_set {V} (k : string) (v : V) (d : list (string * V)) : list (string * V) :=
  match d with
  | [] => [(k, v)]
  | (k', v') :: t => if String.eqb k k' then (k', v) :: t else (k', v') :: str_dict_set k v t
  end.

(** The [params] mapping of a plot task; the keys it reads. *)
Record task_params := {
  p_y_col : option string;
  p_title : option string;
  p_ylabel : option string
}.

Definition empty_params : task_params := {| p_y_col := None; p_title := None; p_ylabel := None |}.

(** An entry of [analysis_tasks]. *)
Record task := {
  t_name : option string;
  t_type : option string;
  t_output : option string;
  t_params : option task_params
}.

(** The configuration mapping.  [cfg_beam_properties] carries, beside the
    three keys [solve_beam] reads, whether the mapping has any other key (it
    decides the truthiness of an otherwise empty dict). *)
Record config := {
  cfg_beam_properties : option (properties * bool);
  cfg_supports : option (list support);
  cfg_loads : option (list load);
  cfg_analysis_tasks : option (list task);
  cfg_output_dir : option string
}.

(** [savefig_supported] tells which (lowercased) formats the installed
    matplotlib can save; an unsupported one makes [savefig] raise. *)
Record env := {
  dir_exists : string -> bool;
  makedirs_ok : string -> bool;
  write_ok : string -> bool;
  savefig_supported : string -> bool
}.

Inductive event :=
| MadeDir (dir : string)
| PlotFile (path x_col y_col title xlabel ylabel : string) (rows : list row)
| CsvFile (path : string) (rows : list row)
| HtmlReport (path : string) (plot_paths : list (string * string)) (rows : list row).

Definition event_path (ev : event) : string :=
  match ev with
  | MadeDir d => d
  | PlotFile p _ _ _ _ _ _ => p
  | CsvFile p _ => p
  | HtmlReport p _ _ => p
  end.

(** The entries of the dict returned in GUI mode. *)
Inductive gui_entry :=
| GuiTable (rows : list row)
| GuiPlot (rows : list row) (params : task_params) (name : string).

(** The exceptions [run_pipeline] raises: [ConfigError] (line 35) and the
    [AnalysisError]s of lines 32 and 43. *)
Inductive pipeline_error :=
| ConfigError
| OutputDirError (dir : string)
| SolverFailed (e : error).

Inductive pipeline_result :=
| Raised (e : pipeline_error)
| Returned (gui_results : option (list (string * gui_entry))).

(** The columns of the DataFrame built by [solve_beam]. *)
Definition columns : list string :=
  ["Position_m"; "Shear_Force_N"; "Bending_Moment_Nm"; "Slope_rad"; "Deflection_m"]%string.

(** [os.path.splitext(p)[1][1:]] on POSIX, computed on the characters of
    [p] from its end: the text after the last ['.'], provided that dot lies
    after the last ['/'] and is preceded there by a character other than
    ['.']; otherwise empty. *)
Fixpoint stem_has_name (r : list ascii) : bool :=
  match r with
  | [] => false
  | c :: t => if Ascii.eqb c "/"%char then false
              else if Ascii.eqb c "."%char then stem_has_name t else true
  end.

Fixpoint format_of_rev (r acc : list ascii) : list ascii :=
  match r with
  | [] => []
  | c :: t => if Ascii.eqb c "/"%char then []
              else if Ascii.eqb c "."%char then (if stem_has_name t then acc else [])
              else format_of_rev t (c :: acc)
  end.

Definition splitext_format (p : string) : string :=
  string_of_list_ascii (format_of_rev (rev (list_ascii_of_string p)) []).

(** [p.rstrip('.')] *)
Fixpoint drop_dots (r : list ascii) : list ascii :=
  match r with
  | c :: t => if Ascii.eqb c "."%char then drop_dots t else r
  | [] => []
  end.

Definition rstrip_dots (p : string) : string :=
  string_of_list_ascii (rev (drop_dots (rev (list_ascii_of_string p)))).

(** [s.lower()] on ASCII letters. *)
Definition ascii_lower (c : ascii) : ascii :=
  let n := nat_of_ascii c in
  if (65 <=? n)%nat && (n <=? 90)%nat then ascii_of_nat (n + 32) else c.

Definition str_lower (s : string) : string :=
  string_of_list_ascii (map ascii_lower (list_ascii_of_string s)).

(** The file [fig.savefig(fname)] writes and its format
    ([FigureCanvasBase.print_figure]): the format is the extension of
    [fname]; without one it is the default [savefig.format], ['png'], and
    [fname.rstrip('.') + '.png'] is written instead. *)
Definition savefig_target (fname : string) : string * string :=
  let fmt := splitext_format fname in
  if String.eqb fmt EmptyString then (String.append (rstrip_dots fname) ".png", "png"%string)
  else (fname, str_lower fmt).

Definition savefig_path (fname : string) : string := fst (savefig_target fname).

(** [plot_line_chart] (plotter.py lines 9-52): nothing when the y column is
    missing; when a path is given the figure is saved by [savefig], which
    writes at [savefig_path output_path]; an unsupported format or a failed
    write raises inside the [try] and leaves no file. *)
Definition plot_line_chart (e : env) (rows : list row)
    (x_col y_col title xlabel ylabel output_path : string) : list event :=
  if negb (str_in y_col columns) then []
  else if String.eqb output_path EmptyString then []
  else let '(path, fmt) := savefig_target output_path in
       if savefig_supported e fmt && write_ok e path
       then [PlotFile path x_col y_col title xlabel ylabel rows]
       else [].

(** [save_output] (reporter.py lines 135-147). *)
Definition save_output (e : env) (rows : list row) (output_path : string) : list event :=
  if write_ok e output_path then [CsvFile output_path rows] else [].

(** [save_html_report] (reporter.py lines 98-132). *)
Definition save_html_report (e : env) (rows : list row) (plot_paths : list (string * string))
    (output_path : string) : list event :=
  if write_ok e output_path then [HtmlReport output_path plot_paths rows] else [].

(** Lines 53-90: the task loop, threading [generated_plot_paths] and
    [gui_results]; [i] is the index of [enumerate]. *)
Fixpoint run_tasks (e : env) (output_dir : string) (rows : list row) (gui_mode : bool)
    (i : nat) (plots : list (string * string)) (gui : list (string * gui_entry))
    (tasks : list task) : list event * list (string * gui_entry) :=
  match tasks with
  | [] => ([], gui)
  | task :: rest =>
      let task_name := str_default (t_name task) (String.append "Task " (string_of_nat (S i))) in
      if negb (py_str_truthy (t_type task) && py_str_truthy (t_output task))
      then run_tasks e output_dir rows gui_mode (S i) plots gui rest else
      let task_type := str_default (t_type task) EmptyString in
      let output_path := path_join output_dir (str_default (t_output task) EmptyString) in
      if String.eqb task_type "plot" then
        let params := match t_params task with Some p => p | None => empty_params end in
        match p_y_col params with
        | None => run_tasks e output_dir rows gui_mode (S i) plots gui rest
        | Some y_col =>
            let evs := plot_line_chart e rows "Position_m" y_col
                         (str_default (p_title params) "Beam Diagram")
                         "Position along beam (m)"
                         (str_default (p_ylabel params) "Value") output_path in
            let plots := str_dict_set (str_default (p_title params) task_name) output_path plots in
            let gui := if gui_mode
                       then str_dict_set (String.append task_name "_plot")
                              (GuiPlot rows params task_name) gui
                       else gui in
            let '(evs', gui) := run_tasks e output_dir rows gui_mode (S i) plots gui rest in
            (evs ++ evs', gui)
        end
      else if String.eqb task_type "save_csv" then
        let '(evs', gui) := run_tasks e output_dir rows gui_mode (S i) plots gui rest in
        (save_output e rows output_path ++ evs', gui)
      else if String.eqb task_type "save_html_report" then
        let '(evs', gui) := run_tasks e output_dir rows gui_mode (S i) plots gui rest in
        (save_html_report e rows plots output_path ++ evs', gui)
      else run_tasks e output_dir rows gui_mode (S i) plots gui rest
  end.

(** Lines 26-32. *)
Definition prepare_output_dir (e : env) (output_dir : string)
    : list event * option pipeline_error :=
  if dir_exists e output_dir then ([], None)
  else if makedirs_ok e output_dir then ([MadeDir output_dir], None)
  else ([], Some (OutputDirError output_dir)).

Definition output_dir_of (cfg : config) : string := str_default (cfg_output_dir cfg) "output/".

Definition properties_truthy (p : properties * bool) : bool :=
  let '(props, other_keys) := p in
  other_keys || match prop_length props, prop_E props, prop_I props with
                | None, None, None => false
                | _, _, _ => true
                end.

(** Lines 19-22 and 34: the four inputs, when all of them are truthy. *)
Definition config_inputs (cfg : config)
    : option (properties * list support * list load * list task) :=
  match cfg_beam_properties cfg, cfg_supports cfg, cfg_loads cfg, cfg_analysis_tasks cfg with
  | Some p, Some ((_ :: _) as s), Some ((_ :: _) as l), Some ((_ :: _) as ts) =>
      if properties_truthy p then Some (fst p, s, l, ts) else None
  | _, _, _, _ => None
  end.

(** [run_pipeline] (main.py lines 13-93). *)
Definition run_pipeline (e : env) (cfg : config) (gui_mode : bool)
    : list event * pipeline_result :=
  let output_dir := output_dir_of cfg in
  let '(dir_events, dir_error) := prepare_output_dir e output_dir in
  match dir_error with
  | Some err => (dir_events, Raised err)
  | None =>
      match config_inputs cfg with
      | None => (dir_events, Raised ConfigError)
      | Some (properties, supports, loads, tasks) =>
          match solve_beam properties supports loads with
          | Err err => (dir_events, Raised (SolverFailed err))
          | Ok results_df =>
              let gui := if gui_mode then [("beam_results_df"%string, GuiTable results_df)] else [] in
              let '(evs, gui) := run_tasks e output_dir results_df gui_mode 0 [] gui tasks in
              (dir_events ++ evs, Returned (if gui_mode then Some gui else None))
          end
      end
  end.

(** A configuration used to exercise [run_pipeline]: a 0.02 m simply
    supported beam with one point load, and three tasks. *)
Definition example_env : env :=
  {| dir_exists := fun _ => false; makedirs_ok := fun _ => true; write_ok := fun _ => true;
     savefig_supported := fun fmt => str_in fmt ["png"; "pdf"; "svg"]%string |}.

Definition example_plot_task : task :=
  {| t_name := Some "Deflection"%string; t_type := Some "plot"%string;
     t_output := Some "deflection.png"%string;
     t_params := Some {| p_y_col := Some "Deflection_m"%string; p_title := None; p_ylabel := None |} |}.

Definition example_csv_task : task :=
  {| t_name := None; t_type := Some "save_csv"%string; t_output := Some "results.csv"%string;
     t_params := None |}.

Definition example_report_task : task :=
  {| t_name := None; t_type := Some "save_html_report"%string; t_output := Some "report.html"%string;
     t_params := None |}.

Definition example_bad_plot_task : task :=
  {| t_name := None; t_type := Some "plot"%string; t_output := Some "moment.png"%string;
     t_params := Some {| p_y_col := Some "Moment"%string; p_title := None; p_ylabel := None |} |}.

Definition example_config (supports : list support) (tasks : option (list task)) : config :=
  {| cfg_beam_properties := Some (beam (qc (1 # 50)), false);
     cfg_supports := Some supports;
     cfg_loads := Some [Point (qc (-10)) (qc (1 # 100))];
     cfg_analysis_tasks := tasks;
     cfg_output_dir := None |}.

(* ------------------------------------------------------------------------- *)
(** ** Arithmetic and comparison lemmas *)

(** Two concrete numbers differ: compare their canonical forms. *)
Ltac qc_neq_tac :=
  let H := fresh in intros H; apply (f_equal this) in H; vm_compute in H; discriminate.


Lemma eq_b_true a b : eq_b a b = true <-> a = b.
Proof.
  unfold eq_b. rewrite Qeq_bool_iff. split.
  - apply Qc_is_canon.
  - intros ->. reflexivity.
Qed.

Lemma eq_b_false a b : eq_b a b = false <-> a <> b.
Proof.
  rewrite <- eq_b_true. destruct (eq_b a b); split; congruence.
Qed.

Lemma Qc_sub_eq0 a b : a - b = 0 <-> a = b.
Proof.
  split; intros H.
  - replace a with ((a - b) + b) by ring. rewrite H. ring.
  - subst. ring.
Qed.

Lemma qc2_eq : qc 2 = 1 + 1.
Proof. apply Qc_is_canon. reflexivity. Qed.

Lemma qc2_nz : qc 2 <> 0.
Proof. intro H. apply (f_equal (fun q : Qc => this q)) in H. vm_compute in H. discriminate. Qed.

(* ------------------------------------------------------------------------- *)
(** ** The load loop of the reaction solvers *)

Lemma accumulate_load_eq pivot a b l :
  accumulate_load pivot (a, b) l
  = (a + resultant_force l, b + resultant_force l * (resultant_position l - pivot)).
Proof.
  destruct l as [mag pos | mag start stop]; cbn; [reflexivity |].
  f_equal. rewrite qc2_eq. field.
  intro H. apply (f_equal (fun q : Qc => this q)) in H. vm_compute in H. discriminate.
Qed.

Lemma fold_accumulate pivot loads a b :
  fold_left (accumulate_load pivot) loads (a, b) = (a + F_total loads, b + M_about pivot loads).
Proof.
  revert a b. induction loads as [| l t IH]; intros a b.
  - simpl. f_equal; ring.
  - cbn [fold_left]. rewrite accumulate_load_eq, IH.
    unfold F_total, M_about. cbn [fold_right]. f_equal; ring.
Qed.

Lemma load_totals_eq pivot loads : load_totals pivot loads = (F_total loads, M_about pivot loads).
Proof. unfold load_totals. rewrite fold_accumulate. f_equal; ring. Qed.

(** Moving the pivot of the load moments. *)
Lemma M_about_shift q p loads : M_about q loads = M_about p loads + (p - q) * F_total loads.
Proof. induction loads as [| l t IH]; simpl; [ring | rewrite IH; ring]. Qed.

(* ------------------------------------------------------------------------- *)
(** ** Recognising the support pattern *)

Lemma strings_eqb_true l1 l2 : strings_eqb l1 l2 = true <-> l1 = l2.
Proof.
  revert l2. induction l1 as [| a t IH]; intros [| b t2]; simpl; try (split; congruence).
  rewrite andb_true_iff, String.eqb_eq, IH. split; [intros [-> ->]; reflexivity | intros H; inversion H; auto].
Qed.

Lemma insert_sorted_length s l : List.length (insert_sorted s l) = S (List.length l).
Proof. induction l as [| h t IH]; simpl; [reflexivity | destruct (String.leb s h); simpl; auto]. Qed.

Lemma sorted_length l : List.length (sorted l) = List.length l.
Proof. induction l as [| h t IH]; simpl; [reflexivity | rewrite insert_sorted_length, IH; reflexivity]. Qed.

Lemma is_ss_shape supports :
  is_ss supports = true ->
  exists p r, supports = [pinned p; roller r] \/ supports = [roller r; pinned p].
Proof.
  unfold is_ss. rewrite strings_eqb_true. intros H.
  assert (Hl := f_equal (@List.length string) H). rewrite sorted_length, length_map in Hl.
  destruct supports as [| [ta pa] [| [tb pb] [| ? ?]]]; simpl in Hl; try discriminate.
  simpl in H. destruct (String.leb ta tb); inversion H; subst; eexists _, _;
  solve [left; reflexivity | right; reflexivity].
Qed.

Lemma pinned_roller_positions supports p r :
  is_ss supports = true -> In (pinned p) supports -> In (roller r) supports ->
  next_position "pinned" supports = Some p /\ next_position "roller" supports = Some r.
Proof.
  intros Hss Hp Hr. destruct (is_ss_shape supports Hss) as (p' & r' & [-> | ->]);
  simpl in Hp, Hr;
  repeat match goal with
  | H : _ \/ _ |- _ => destruct H as [H | H]
  | H : False |- _ => destruct H
  | H : pinned _ = _ |- _ => inversion H; subst; clear H
  | H : roller _ = _ |- _ => inversion H; subst; clear H
  end; split; reflexivity.
Qed.

(* ------------------------------------------------------------------------- *)
(** ** C1: reactions of a simply-supported beam *)

(** C1.  For exactly one pinned support at [p] and one roller at [r] with
    [r - p <> 0], [_calculate_reactions_simply_supported] returns
    [{p: R_pin, r: R_roller}] and initial moment [0] with
    [R_roller = -M_about_pin / (r - p)] and [R_pin = -F_total - R_roller];
    the reactions balance the load resultants (forces sum to zero) and the
    net moment about every point [q] is zero. *)
Theorem reactions_simply_supported_equilibrium length supports loads p r :
  is_ss supports = true -> In (pinned p) supports -> In (roller r) supports ->
  r - p <> 0 ->
  exists R_pin R_roller,
    calculate_reactions_simply_supported length supports loads
      = Ok ([(p, R_pin); (r, R_roller)], 0)
    /\ R_roller = - M_about p loads / (r - p)
    /\ R_pin = - F_total loads - R_roller
    /\ R_pin + R_roller + F_total loads = 0
    /\ forall q, R_pin * (p - q) + R_roller * (r - q) + M_about q loads = 0.
Proof.
  intros Hss Hp Hr Hs.
  destruct (pinned_roller_positions supports p r Hss Hp Hr) as [Hnp Hnr].
  exists (- F_total loads - - M_about p loads / (r - p)), (- M_about p loads / (r - p)).
  split; [| split; [reflexivity | split; [reflexivity | split]]].
  - unfold calculate_reactions_simply_supported, next_position_or.
    rewrite Hnp, Hnr, load_totals_eq.
    assert (Hb : eq_b (r - p) 0 = false) by (apply eq_b_false; exact Hs).
    rewrite Hb. unfold py_div. rewrite Hb. simpl.
    assert (Hrp : eq_b r p = false).
    { apply eq_b_false. intros ->. apply Hs. ring. }
    unfold dict_of. simpl. rewrite Hrp. reflexivity.
  - ring.
  - intros q. rewrite (M_about_shift q p). field. exact Hs.
Qed.

Lemma reactions_simply_supported_equilibrium_witness :
  (is_ss [pinned 0; roller (qc 10)] = true /\ In (pinned 0) [pinned 0; roller (qc 10)]
   /\ In (roller (qc 10)) [pinned 0; roller (qc 10)] /\ qc 10 - 0 <> 0)
  /\ exists R_pin R_roller,
    calculate_reactions_simply_supported (qc 10) [pinned 0; roller (qc 10)]
      [Point (qc (-10000)) (qc 5)] = Ok ([(0, R_pin); (qc 10, R_roller)], 0)
    /\ R_roller = - M_about 0 [Point (qc (-10000)) (qc 5)] / (qc 10 - 0)
    /\ R_pin = - F_total [Point (qc (-10000)) (qc 5)] - R_roller
    /\ R_pin + R_roller + F_total [Point (qc (-10000)) (qc 5)] = 0
    /\ forall q, R_pin * (0 - q) + R_roller * (qc 10 - q)
                 + M_about q [Point (qc (-10000)) (qc 5)] = 0.
Proof.
  split.
  - split; [reflexivity | split; [left; reflexivity | split; [right; left; reflexivity |]]].
    intro H. apply (f_equal (fun q : Qc => this q)) in H. vm_compute in H. discriminate.
  - apply reactions_simply_supported_equilibrium.
    + reflexivity.
    + left; reflexivity.
    + right; left; reflexivity.
    + intro H. apply (f_equal (fun q : Qc => this q)) in H. vm_compute in H. discriminate.
Defined.

(* ------------------------------------------------------------------------- *)
(** ** Array lemmas *)

Lemma vadd_length u v : List.length (vadd u v) = Nat.min (List.length u) (List.length v).
Proof. revert v; induction u as [| a u IH]; intros [| b v]; simpl; auto. Qed.

Lemma vsub_length u v : List.length (vsub u v) = Nat.min (List.length u) (List.length v).
Proof. revert v; induction u as [| a u IH]; intros [| b v]; simpl; auto. Qed.

Lemma vadd_nth i u v :
  (i < List.length u)%nat -> (i < List.length v)%nat ->
  nth i (vadd u v) 0 = nth i u 0 + nth i v 0.
Proof.
  revert i v; induction u as [| a u IH]; intros i [| b v] Hu Hv; simpl in *; try lia.
  destruct i; [reflexivity | apply IH; lia].
Qed.

Lemma vsub_nth i u v :
  (i < List.length u)%nat -> (i < List.length v)%nat ->
  nth i (vsub u v) 0 = nth i u 0 - nth i v 0.
Proof.
  revert i v; induction u as [| a u IH]; intros i [| b v] Hu Hv; simpl in *; try lia.
  destruct i; [reflexivity | apply IH; lia].
Qed.

Lemma map_nth_lt {A} (f : A -> Qc) (d : A) i v :
  (i < List.length v)%nat -> nth i (map f v) 0 = f (nth i v d).
Proof.
  intros H. rewrite (nth_indep _ 0 (f d)) by (rewrite length_map; exact H).
  apply map_nth.
Qed.

Lemma cumsum_from_length acc v : List.length (cumsum_from acc v) = List.length v.
Proof. revert acc; induction v; simpl; auto. Qed.

Lemma cumsum_length v : List.length (cumsum v) = List.length v.
Proof. apply cumsum_from_length. Qed.

Lemma cumsum_from_nth acc v i :
  (i < List.length v)%nat -> nth i (cumsum_from acc v) 0 = acc + sum (firstn (S i) v).
Proof.
  revert acc i; induction v as [| a v IH]; intros acc i H; simpl in *; [lia |].
  destruct i as [| i].
  - simpl. ring.
  - rewrite IH by lia. change (sum (firstn (S i) v)) with (sum (firstn (S i) v)).
    cbn [firstn]. simpl. ring.
Qed.

Lemma cumsum_scaled_nth v s i :
  (i < List.length v)%nat -> nth i (vscale (cumsum v) s) 0 = s * sum (firstn (S i) v).
Proof.
  intros H. unfold vscale. rewrite (map_nth_lt _ 0) by (rewrite cumsum_length; exact H).
  unfold cumsum. rewrite cumsum_from_nth by exact H. ring.
Qed.

Lemma repeat_nth_lt (c : Qc) n i : (i < n)%nat -> nth i (repeat c n) 0 = c.
Proof. revert i; induction n; intros [| i] H; simpl; auto; try lia. apply IHn; lia. Qed.

(* ------------------------------------------------------------------------- *)
(** ** The grid *)

Lemma linspace_length a b num x :
  linspace a b num = Ok x -> List.length x = Z.to_nat num.
Proof.
  unfold linspace. destruct (num <? 0)%Z; intros H; inversion H; subst.
  rewrite length_map, length_seq. reflexivity.
Qed.

Lemma linspace_nth len num x i :
  linspace 0 len num = Ok x -> (i < Z.to_nat num)%nat ->
  nth i x 0 = if ((1 <? num) && (Z.of_nat i =? num - 1))%Z then len
              else if (0 <? num - 1)%Z then qc_of_nat i * ((len - 0) / qc_of_Z (num - 1)) + 0
              else qc_of_nat i * (len - 0) + 0.
Proof.
  unfold linspace. destruct (num <? 0)%Z; intros H Hi; inversion H; subst.
  rewrite (map_nth_lt _ O) by (rewrite length_seq; exact Hi).
  rewrite seq_nth by exact Hi. reflexivity.
Qed.

Lemma make_grid_ok len g :
  make_grid len = Ok g ->
  num_points g = (py_int (len * qc 200) + 1)%Z
  /\ List.length (x g) = Z.to_nat (num_points g)
  /\ (0 <= num_points g)%Z
  /\ num_points g <> 1%Z
  /\ dx g = len / qc_of_Z (num_points g - 1)
  /\ linspace 0 len (num_points g) = Ok (x g).
Proof.
  unfold make_grid. intros H.
  destruct (linspace 0 len (py_int (len * qc 200) + 1)) as [x0 |] eqn:Hl; [| discriminate].
  simpl in H. unfold py_div in H.
  destruct (eq_b (qc_of_Z (py_int (len * qc 200) + 1 - 1)) 0) eqn:Hz; [discriminate |].
  simpl in H. inversion H; subst. simpl.
  assert (Hnn : (0 <= py_int (len * qc 200) + 1)%Z).
  { unfold linspace in Hl. destruct (_ <? 0)%Z eqn:Hc; [discriminate |]. apply Z.ltb_ge in Hc. exact Hc. }
  repeat split; auto.
  - eapply linspace_length; eauto.
  - intros H1. rewrite H1 in Hz. discriminate.
Qed.

(* ------------------------------------------------------------------------- *)
(** ** The stages of [solve_beam] *)

Lemma analyse_ok properties supports loads st :
  analyse properties supports loads = Ok st ->
  exists bp g reactions initial_moment,
    read_properties properties = Ok bp
    /\ make_grid (length bp) = Ok g
    /\ reactions_of (length bp) supports loads = Ok (reactions, initial_moment)
    /\ st_props st = bp /\ st_grid st = g
    /\ st_is_cantilever st = is_cantilever supports /\ st_is_ss st = is_ss supports
    /\ st_reactions st = reactions /\ st_initial_moment st = initial_moment
    /\ st_V st = shear (x g) reactions loads
    /\ st_M st = vadd (repeat initial_moment (Z.to_nat (num_points g)))
                      (vscale (cumsum (st_V st)) (dx g))
    /\ st_slope st = vscale (cumsum (map (fun m => m / (E bp * I bp)) (st_M st))) (dx g)
    /\ st_deflection_raw st = vscale (cumsum (st_slope st)) (dx g).
Proof.
  unfold analyse. intros H.
  destruct (read_properties properties) as [bp |] eqn:Hp; [| discriminate]. simpl in H.
  destruct (make_grid (length bp)) as [g |] eqn:Hg; [| discriminate]. simpl in H.
  destruct (reactions_of (length bp) supports loads) as [[reactions init] |] eqn:Hr;
    [| discriminate]. simpl in H.
  inversion H; subst. exists bp, g, reactions, init. repeat split; first [reflexivity | assumption].
Qed.

Lemma heaviside_length x pos mag : List.length (heaviside x pos mag) = List.length x.
Proof. apply length_map. Qed.

Lemma add_reaction_shear_length x V r :
  List.length V = List.length x -> List.length (add_reaction_shear x V r) = List.length x.
Proof. intros H. unfold add_reaction_shear. rewrite vadd_length, heaviside_length. lia. Qed.

Lemma add_load_shear_length x V l :
  List.length V = List.length x -> List.length (add_load_shear x V l) = List.length x.
Proof.
  intros H. destruct l; simpl; rewrite !vadd_length, ?heaviside_length, ?length_map; lia.
Qed.

Lemma fold_reactions_length x reactions V :
  List.length V = List.length x ->
  List.length (fold_left (add_reaction_shear x) reactions V) = List.length x.
Proof.
  revert V; induction reactions; intros V H; simpl; auto.
  apply IHreactions, add_reaction_shear_length, H.
Qed.

Lemma fold_loads_length x loads V :
  List.length V = List.length x ->
  List.length (fold_left (add_load_shear x) loads V) = List.length x.
Proof.
  revert V; induction loads; intros V H; simpl; auto.
  apply IHloads, add_load_shear_length, H.
Qed.

Lemma shear_length x reactions loads : List.length (shear x reactions loads) = List.length x.
Proof.
  unfold shear. apply fold_loads_length, fold_reactions_length. apply repeat_length.
Qed.

Lemma add_reaction_shear_nth x V r i :
  List.length V = List.length x -> (i < List.length x)%nat ->
  nth i (add_reaction_shear x V r) 0 = nth i V 0 + spec_reaction_shear (nth i x 0) r.
Proof.
  intros HV Hi. unfold add_reaction_shear, heaviside.
  rewrite vadd_nth by (rewrite ?length_map; lia).
  rewrite (map_nth_lt _ 0) by exact Hi. reflexivity.
Qed.

Lemma add_load_shear_nth x V l i :
  List.length V = List.length x -> (i < List.length x)%nat ->
  nth i (add_load_shear x V l) 0 = nth i V 0 + spec_load_shear (nth i x 0) l.
Proof.
  intros HV Hi. destruct l as [mag pos | mag start stop]; simpl.
  - unfold heaviside. rewrite vadd_nth by (rewrite ?length_map; lia).
    rewrite (map_nth_lt _ 0) by exact Hi. reflexivity.
  - rewrite vadd_nth by (rewrite ?vadd_length, ?length_map; lia).
    rewrite vadd_nth by (rewrite ?length_map; lia).
    rewrite !(map_nth_lt _ 0) by exact Hi. ring.
Qed.

Lemma fold_reactions_nth x reactions V i :
  List.length V = List.length x -> (i < List.length x)%nat ->
  nth i (fold_left (add_reaction_shear x) reactions V) 0
  = nth i V 0 + fold_right (fun r acc => spec_reaction_shear (nth i x 0) r + acc) 0 reactions.
Proof.
  revert V; induction reactions as [| r t IH]; intros V HV Hi; simpl.
  - ring.
  - rewrite IH by (try apply add_reaction_shear_length; auto).
    rewrite add_reaction_shear_nth by auto. ring.
Qed.

Lemma fold_loads_nth x loads V i :
  List.length V = List.length x -> (i < List.length x)%nat ->
  nth i (fold_left (add_load_shear x) loads V) 0
  = nth i V 0 + fold_right (fun l acc => spec_load_shear (nth i x 0) l + acc) 0 loads.
Proof.
  revert V; induction loads as [| l t IH]; intros V HV Hi; simpl.
  - ring.
  - rewrite IH by (try apply add_load_shear_length; auto).
    rewrite add_load_shear_nth by auto. ring.
Qed.

Lemma shear_nth x reactions loads i :
  (i < List.length x)%nat ->
  nth i (shear x reactions loads) 0
  = fold_right (fun r acc => spec_reaction_shear (nth i x 0) r + acc) 0 reactions
    + fold_right (fun l acc => spec_load_shear (nth i x 0) l + acc) 0 loads.
Proof.
  intros Hi. unfold shear.
  rewrite fold_loads_nth by (try apply fold_reactions_length; rewrite ?repeat_length; auto).
  rewrite fold_reactions_nth by (rewrite ?repeat_length; auto).
  rewrite repeat_nth_lt by exact Hi. ring.
Qed.

Lemma calculate_reactions_simply_supported_initial len supports loads reactions init :
  calculate_reactions_simply_supported len supports loads = Ok (reactions, init) -> init = 0.
Proof.
  unfold calculate_reactions_simply_supported, py_div. rewrite load_totals_eq.
  destruct (eq_b _ 0); [discriminate |]. simpl. intros H; inversion H; reflexivity.
Qed.

Lemma is_cantilever_not_ss supports : is_cantilever supports = true -> is_ss supports = false.
Proof.
  unfold is_cantilever, is_ss. rewrite andb_true_iff, strings_eqb_true. intros [-> _]. reflexivity.
Qed.

Lemma reactions_of_cantilever len supports loads reactions init :
  is_cantilever supports = true ->
  reactions_of len supports loads = Ok (reactions, init) ->
  exists s0, supports = [s0] /\ reactions = [(s_position s0, - F_total loads)]
             /\ init = - M_about (s_position s0) loads.
Proof.
  intros Hc. unfold reactions_of. rewrite (is_cantilever_not_ss _ Hc), Hc.
  unfold is_cantilever in Hc. apply andb_true_iff in Hc as [_ Hl]. apply Nat.eqb_eq in Hl.
  destruct supports as [| s0 [| ? ?]]; simpl in Hl; try discriminate.
  unfold calculate_reactions_cantilever. rewrite load_totals_eq. simpl.
  intros H; inversion H; subst. exists s0. repeat split; reflexivity.
Qed.

Lemma reactions_of_ss len supports loads reactions init :
  is_ss supports = true ->
  reactions_of len supports loads = Ok (reactions, init) ->
  calculate_reactions_simply_supported len supports loads = Ok (reactions, init).
Proof. intros Hs. unfold reactions_of. rewrite Hs. auto. Qed.

Lemma analyse_lengths properties supports loads st :
  analyse properties supports loads = Ok st ->
  List.length (st_V st) = List.length (x (st_grid st))
  /\ List.length (st_M st) = List.length (x (st_grid st))
  /\ List.length (st_slope st) = List.length (x (st_grid st))
  /\ List.length (st_deflection_raw st) = List.length (x (st_grid st)).
Proof.
  intros H. destruct (analyse_ok _ _ _ _ H)
    as (bp & g & reactions & init & Hp & Hg & Hr & Hbp & Hgg & _ & _ & _ & _ & HV & HM & Hs & Hd).
  destruct (make_grid_ok _ _ Hg) as (_ & Hx & _).
  assert (HV' : List.length (st_V st) = List.length (x (st_grid st))).
  { rewrite HV, Hgg. apply shear_length. }
  assert (HM' : List.length (st_M st) = List.length (x (st_grid st))).
  { rewrite HM, vadd_length, repeat_length. unfold vscale. rewrite length_map, cumsum_length, HV'.
    rewrite Hgg, Hx. lia. }
  assert (Hs' : List.length (st_slope st) = List.length (x (st_grid st))).
  { rewrite Hs. unfold vscale. rewrite length_map, cumsum_length, length_map. exact HM'. }
  repeat split; auto.
  rewrite Hd. unfold vscale. rewrite length_map, cumsum_length. exact Hs'.
Qed.

(* ------------------------------------------------------------------------- *)
(** ** C2: moment, slope and deflection by cumulative summation *)

(** C2.  For every recognised configuration, [M[i] = initial_moment + dx *
    sum_{j<=i} V[j]], where the initial moment is [0] for a simply-supported
    beam and the fixed-end reaction moment [-M_about_fixed] for a
    cantilever; the slope is [slope[i] = dx * sum_{j<=i} M[j]/(E*I)] and the
    uncorrected deflection is [deflection_raw[i] = dx * sum_{j<=i} slope[j]]. *)
Theorem moment_slope_deflection_cumsum properties supports loads st :
  analyse properties supports loads = Ok st ->
  (st_is_ss st = true -> st_initial_moment st = 0)
  /\ (st_is_cantilever st = true ->
      exists s0, supports = [s0] /\ st_initial_moment st = - M_about (s_position s0) loads)
  /\ forall i, (i < List.length (x (st_grid st)))%nat ->
     nth i (st_M st) 0 = st_initial_moment st + dx (st_grid st) * sum (firstn (S i) (st_V st))
     /\ nth i (st_slope st) 0
        = dx (st_grid st)
          * sum (firstn (S i) (map (fun m => m / (E (st_props st) * I (st_props st))) (st_M st)))
     /\ nth i (st_deflection_raw st) 0 = dx (st_grid st) * sum (firstn (S i) (st_slope st)).
Proof.
  intros H. destruct (analyse_lengths _ _ _ _ H) as (HlV & HlM & Hls & _).
  destruct (analyse_ok _ _ _ _ H)
    as (bp & g & reactions & init & Hp & Hg & Hr & Hbp & Hgg & Hc & Hss & Hre & Hi & HV & HM & Hs & Hd).
  destruct (make_grid_ok _ _ Hg) as (_ & Hx & _).
  split; [| split].
  - rewrite Hss, Hi. intros Hss'.
    exact (calculate_reactions_simply_supported_initial _ _ _ _ _ (reactions_of_ss _ _ _ _ _ Hss' Hr)).
  - rewrite Hc, Hi. intros Hc'.
    destruct (reactions_of_cantilever _ _ _ _ _ Hc' Hr) as (s0 & Hs0 & _ & Hinit).
    exists s0. split; assumption.
  - intros i Hlt. split; [| split].
    + rewrite HM. rewrite vadd_nth.
      * rewrite repeat_nth_lt by (rewrite <- Hx, <- Hgg; exact Hlt).
        rewrite cumsum_scaled_nth by lia. rewrite Hi, Hgg. reflexivity.
      * rewrite repeat_length, <- Hx, <- Hgg. exact Hlt.
      * unfold vscale. rewrite length_map, cumsum_length. lia.
    + rewrite Hs, cumsum_scaled_nth by (rewrite length_map; lia). rewrite Hbp, Hgg. reflexivity.
    + rewrite Hd, cumsum_scaled_nth by lia. rewrite Hgg. reflexivity.
Qed.

Lemma moment_slope_deflection_cumsum_witness :
  exists st,
    analyse (beam (qc (1 # 50))) [fixed 0] [Point (qc (-2000)) (qc (1 # 50))] = Ok st
    /\ (st_is_ss st = true -> st_initial_moment st = 0)
    /\ (st_is_cantilever st = true ->
        exists s0, [fixed 0] = [s0]
                   /\ st_initial_moment st = - M_about (s_position s0) [Point (qc (-2000)) (qc (1 # 50))])
    /\ forall i, (i < List.length (x (st_grid st)))%nat ->
       nth i (st_M st) 0 = st_initial_moment st + dx (st_grid st) * sum (firstn (S i) (st_V st))
       /\ nth i (st_slope st) 0
          = dx (st_grid st)
            * sum (firstn (S i) (map (fun m => m / (E (st_props st) * I (st_props st))) (st_M st)))
       /\ nth i (st_deflection_raw st) 0 = dx (st_grid st) * sum (firstn (S i) (st_slope st)).
Proof.
  destruct (analyse (beam (qc (1 # 50))) [fixed 0] [Point (qc (-2000)) (qc (1 # 50))])
    as [st | e] eqn:H.
  - exists st. split; [reflexivity |].
    exact (moment_slope_deflection_cumsum _ _ _ st H).
  - vm_compute in H. discriminate.
Defined.

(* ------------------------------------------------------------------------- *)
(** ** C3: shear by superposition *)

(** C3.  At every grid position [x_i] the shear is the sum of independent
    contributions: each reaction [(p, m)] adds [m] where [x_i >= p]; each
    point load [m] at [p] adds [m] where [x_i >= p]; each distributed load of
    intensity [m] over [start, end] adds [m * (x_i - start)] inside the span
    and [m * (end - start)] where [x_i >= end]. *)
Theorem shear_superposition properties supports loads st :
  analyse properties supports loads = Ok st ->
  forall i, (i < List.length (x (st_grid st)))%nat ->
  nth i (st_V st) 0
  = fold_right (fun r acc => spec_reaction_shear (nth i (x (st_grid st)) 0) r + acc) 0
      (st_reactions st)
    + fold_right (fun l acc => spec_load_shear (nth i (x (st_grid st)) 0) l + acc) 0 loads.
Proof.
  intros H i Hi.
  destruct (analyse_ok _ _ _ _ H)
    as (bp & g & reactions & init & _ & _ & _ & _ & Hgg & _ & _ & Hre & _ & HV & _).
  rewrite HV, Hre, Hgg. rewrite Hgg in Hi. apply shear_nth, Hi.
Qed.

Lemma shear_superposition_witness :
  exists st,
    analyse (beam (qc (1 # 50))) [pinned 0; roller (qc (1 # 50))]
      [Distributed (qc (-100)) 0 (qc (1 # 100))] = Ok st
    /\ forall i, (i < List.length (x (st_grid st)))%nat ->
       nth i (st_V st) 0
       = fold_right (fun r acc => spec_reaction_shear (nth i (x (st_grid st)) 0) r + acc) 0
           (st_reactions st)
         + fold_right (fun l acc => spec_load_shear (nth i (x (st_grid st)) 0) l + acc) 0
             [Distributed (qc (-100)) 0 (qc (1 # 100))].
Proof.
  destruct (analyse (beam (qc (1 # 50))) [pinned 0; roller (qc (1 # 50))]
              [Distributed (qc (-100)) 0 (qc (1 # 100))]) as [st | e] eqn:H.
  - exists st. split; [reflexivity |]. exact (shear_superposition _ _ _ st H).
  - vm_compute in H. discriminate.
Defined.

(* ------------------------------------------------------------------------- *)
(** ** [np.argmin] *)

Lemma lt_b_true a b : lt_b a b = true -> a < b.
Proof.
  unfold lt_b. intros H. apply negb_true_iff in H.
  apply Qnot_le_lt. intros Hle. apply Qle_bool_iff in Hle. congruence.
Qed.

Lemma lt_b_false a b : lt_b a b = false -> b <= a.
Proof. unfold lt_b. intros H. apply negb_false_iff, Qle_bool_iff in H. exact H. Qed.

Lemma skipn_cons_next {A} (v t : list A) (a : A) i :
  skipn i v = a :: t -> skipn (S i) v = t.
Proof.
  intros H. change (S i) with (1 + i)%nat. rewrite <- skipn_skipn, H. reflexivity.
Qed.

Lemma argmin_from_correct v : forall t i bi b,
  skipn i v = t -> (bi < i)%nat -> (i <= List.length v)%nat -> nth bi v 0 = b ->
  (forall j, (j < i)%nat -> b <= nth j v 0) ->
  (forall j, (j < bi)%nat -> b < nth j v 0) ->
  first_min_index v (argmin_from t i bi b).
Proof.
  intros t. induction t as [| a t IH]; intros i bi b Hsk Hbi Hi Hb Hle Hlt; simpl.
  - assert (Hn : List.length v = i).
    { assert (H0 := length_skipn i v). rewrite Hsk in H0. simpl in H0. lia. }
    split; [lia | split].
    + intros j Hj. rewrite Hb. apply Hle. lia.
    + intros j Hj. rewrite Hb. apply Hlt. exact Hj.
  - assert (Ha : nth i v 0 = a).
    { assert (H0 := nth_skipn i v 0 0). rewrite Hsk, Nat.add_0_r in H0. simpl in H0. auto. }
    assert (Hiv : (i < List.length v)%nat).
    { assert (H0 := length_skipn i v). rewrite Hsk in H0. simpl in H0. lia. }
    assert (Hsk' := skipn_cons_next v t a i Hsk).
    destruct (lt_b a b) eqn:Hab.
    + apply lt_b_true in Hab. apply IH; auto; try lia.
      * intros j Hj. destruct (Nat.eq_dec j i) as [-> | Hne].
        -- rewrite Ha. apply Qcle_refl.
        -- apply Qclt_le_weak, (Qclt_le_trans _ b); [exact Hab | apply Hle; lia].
      * intros j Hj. apply (Qclt_le_trans _ b); [exact Hab | apply Hle; lia].
    + apply lt_b_false in Hab. apply IH; auto; try lia.
      intros j Hj. destruct (Nat.eq_dec j i) as [-> | Hne].
      * rewrite Ha. exact Hab.
      * apply Hle. lia.
Qed.

Lemma argmin_correct v k : argmin v = Ok k -> first_min_index v k.
Proof.
  destruct v as [| a t]; simpl; intros H; inversion H; subst.
  apply (argmin_from_correct (a :: t)); simpl; try lia; try reflexivity.
  intros j Hj. assert (j = O) by lia. subst. apply Qcle_refl.
Qed.

(* ------------------------------------------------------------------------- *)
(** ** Boundary conditions and the returned table *)

Lemma is_ss_not_cantilever supports : is_ss supports = true -> is_cantilever supports = false.
Proof.
  intros H. destruct (is_cantilever supports) eqn:Hc; auto.
  rewrite (is_cantilever_not_ss _ Hc) in H. discriminate.
Qed.

Lemma apply_boundary_conditions_ss supports x d out :
  apply_boundary_conditions supports false true x d = Ok out ->
  exists p r ip ir,
    next_position "pinned" supports = Some p /\ next_position "roller" supports = Some r
    /\ argmin (map (fun xi => abs (xi - p)) x) = Ok ip
    /\ argmin (map (fun xi => abs (xi - r)) x) = Ok ir
    /\ nth ir x 0 - nth ip x 0 <> 0
    /\ out = vsub d (map (line_through (nth ip x 0) (nth ip d 0) (nth ir x 0) (nth ir d 0)) x).
Proof.
  unfold apply_boundary_conditions. simpl.
  destruct (next_position "pinned" supports) as [p |]; [| discriminate].
  destruct (next_position "roller" supports) as [r |]; [| discriminate].
  destruct (argmin (map (fun xi => abs (xi - p)) x)) as [ip |] eqn:Hip; [| discriminate]. simpl.
  destruct (argmin (map (fun xi => abs (xi - r)) x)) as [ir |] eqn:Hir; [| discriminate]. simpl.
  destruct (eq_b (nth ir x 0 - nth ip x 0) 0) eqn:Hz; [discriminate |].
  intros H. inversion H; subst. apply eq_b_false in Hz.
  exists p, r, ip, ir. repeat split; auto.
Qed.

Lemma solve_beam_ok properties supports loads rows :
  solve_beam properties supports loads = Ok rows ->
  exists st deflection,
    analyse properties supports loads = Ok st
    /\ apply_boundary_conditions supports (st_is_cantilever st) (st_is_ss st)
         (x (st_grid st)) (st_deflection_raw st) = Ok deflection
    /\ rows = dataframe (x (st_grid st)) (st_V st) (st_M st) (st_slope st) deflection.
Proof.
  unfold solve_beam. destruct (analyse properties supports loads) as [st |] eqn:Ha; [| discriminate].
  simpl. destruct (apply_boundary_conditions _ _ _ _ _) as [d |] eqn:Hb; [| discriminate].
  simpl. intros H; inversion H; subst. exists st, d. auto.
Qed.

Lemma dataframe_length x V M slope d : List.length (dataframe x V M slope d) = List.length x.
Proof. unfold dataframe. rewrite length_map, length_seq. reflexivity. Qed.

Lemma dataframe_columns x V M slope d i :
  (i < List.length x)%nat ->
  nth i (map Position_m (dataframe x V M slope d)) 0 = nth i x 0
  /\ nth i (map Shear_Force_N (dataframe x V M slope d)) 0 = nth i V 0
  /\ nth i (map Bending_Moment_Nm (dataframe x V M slope d)) 0 = nth i M 0
  /\ nth i (map Slope_rad (dataframe x V M slope d)) 0 = nth i slope 0
  /\ nth i (map Deflection_m (dataframe x V M slope d)) 0 = nth i d 0.
Proof.
  intros Hi. unfold dataframe. rewrite !map_map.
  rewrite !(map_nth_lt _ O) by (rewrite length_seq; exact Hi).
  rewrite !seq_nth by exact Hi. simpl. repeat split.
Qed.

(* ------------------------------------------------------------------------- *)
(** ** C4: the simply-supported deflection correction *)

(** C4.  For a simply-supported beam with the pin at [p] and the roller at
    [r], the returned deflection is the uncorrected deflection minus the
    straight line through [(x[idx_pin], raw[idx_pin])] and
    [(x[idx_roller], raw[idx_roller])], where [idx_pin] and [idx_roller] are
    the grid indices nearest [p] and [r]; it is exactly [0] at both indices.
    The beam has a nonzero flexural rigidity [E * I] (at [E * I = 0] the
    code's deflection is [inf]/[nan]). *)
Theorem deflection_correction_ss properties supports loads rows p r bp :
  read_properties properties = Ok bp -> E bp * I bp <> 0 ->
  is_ss supports = true -> In (pinned p) supports -> In (roller r) supports ->
  solve_beam properties supports loads = Ok rows ->
  exists st idx_pin idx_roller,
    analyse properties supports loads = Ok st
    /\ nearest_index (x (st_grid st)) p idx_pin
    /\ nearest_index (x (st_grid st)) r idx_roller
    /\ List.length rows = List.length (x (st_grid st))
    /\ (forall i, (i < List.length (x (st_grid st)))%nat ->
        nth i (map Deflection_m rows) 0
        = nth i (st_deflection_raw st) 0
          - line_through (nth idx_pin (x (st_grid st)) 0) (nth idx_pin (st_deflection_raw st) 0)
              (nth idx_roller (x (st_grid st)) 0) (nth idx_roller (st_deflection_raw st) 0)
              (nth i (x (st_grid st)) 0))
    /\ nth idx_pin (map Deflection_m rows) 0 = 0
    /\ nth idx_roller (map Deflection_m rows) 0 = 0.
Proof.
  intros _ _ Hss Hp Hr H.
  destruct (pinned_roller_positions _ _ _ Hss Hp Hr) as [Hnp Hnr].
  destruct (solve_beam_ok _ _ _ _ H) as (st & d & Ha & Hbc & Hrows). subst rows.
  destruct (analyse_ok _ _ _ _ Ha) as (bp0 & g & reactions & init & _ & _ & _ & _ & _ & Hc & Hs & _).
  destruct (analyse_lengths _ _ _ _ Ha) as (_ & _ & _ & Hld).
  rewrite Hc, Hs, (is_ss_not_cantilever _ Hss), Hss in Hbc.
  destruct (apply_boundary_conditions_ss _ _ _ _ Hbc)
    as (p' & r' & ip & ir & Hp' & Hr' & Hip & Hir & Hnz & ->).
  rewrite Hnp in Hp'. injection Hp' as <-. rewrite Hnr in Hr'. injection Hr' as <-.
  apply argmin_correct in Hip. apply argmin_correct in Hir.
  assert (Hipl : (ip < List.length (x (st_grid st)))%nat)
    by (destruct Hip as [Hip _]; rewrite length_map in Hip; exact Hip).
  assert (Hirl : (ir < List.length (x (st_grid st)))%nat)
    by (destruct Hir as [Hir _]; rewrite length_map in Hir; exact Hir).
  set (xs := x (st_grid st)) in *. set (raw := st_deflection_raw st) in *.
  assert (Hcol : forall i, (i < List.length xs)%nat ->
    nth i (map Deflection_m (dataframe xs (st_V st) (st_M st) (st_slope st)
        (vsub raw (map (line_through (nth ip xs 0) (nth ip raw 0) (nth ir xs 0) (nth ir raw 0)) xs)))) 0
    = nth i raw 0 - line_through (nth ip xs 0) (nth ip raw 0) (nth ir xs 0) (nth ir raw 0) (nth i xs 0)).
  { intros i Hi. destruct (dataframe_columns xs (st_V st) (st_M st) (st_slope st)
      (vsub raw (map (line_through (nth ip xs 0) (nth ip raw 0) (nth ir xs 0) (nth ir raw 0)) xs)) i Hi)
      as (_ & _ & _ & _ & ->).
    rewrite vsub_nth by (rewrite ?length_map; lia).
    rewrite (map_nth_lt _ 0) by exact Hi. reflexivity. }
  exists st, ip, ir. split; [exact Ha |]. split; [exact Hip |]. split; [exact Hir |].
  split; [apply dataframe_length |]. split; [exact Hcol |]. split.
  - rewrite Hcol by exact Hipl. unfold line_through. ring.
  - rewrite Hcol by exact Hirl. unfold line_through. field. exact Hnz.
Qed.

Lemma deflection_correction_ss_witness :
  read_properties (beam (qc (1 # 50)))
    = Ok {| length := qc (1 # 50); E := qc 200000000000; I := qc (83 # 1000000) |}
  /\ qc 200000000000 * qc (83 # 1000000) <> 0
  /\ exists rows,
    solve_beam (beam (qc (1 # 50))) [pinned 0; roller (qc (1 # 50))]
      [Point (qc (-10000)) (qc (1 # 100))] = Ok rows
    /\ exists st idx_pin idx_roller,
    analyse (beam (qc (1 # 50))) [pinned 0; roller (qc (1 # 50))]
      [Point (qc (-10000)) (qc (1 # 100))] = Ok st
    /\ nearest_index (x (st_grid st)) 0 idx_pin
    /\ nearest_index (x (st_grid st)) (qc (1 # 50)) idx_roller
    /\ List.length rows = List.length (x (st_grid st))
    /\ (forall i, (i < List.length (x (st_grid st)))%nat ->
        nth i (map Deflection_m rows) 0
        = nth i (st_deflection_raw st) 0
          - line_through (nth idx_pin (x (st_grid st)) 0) (nth idx_pin (st_deflection_raw st) 0)
              (nth idx_roller (x (st_grid st)) 0) (nth idx_roller (st_deflection_raw st) 0)
              (nth i (x (st_grid st)) 0))
    /\ nth idx_pin (map Deflection_m rows) 0 = 0
    /\ nth idx_roller (map Deflection_m rows) 0 = 0.
Proof.
  assert (HEI : qc 200000000000 * qc (83 # 1000000) <> 0) by qc_neq_tac.
  split; [reflexivity |]. split; [exact HEI |].
  destruct (solve_beam (beam (qc (1 # 50))) [pinned 0; roller (qc (1 # 50))]
              [Point (qc (-10000)) (qc (1 # 100))]) as [rows | e] eqn:H.
  - exists rows. split; [reflexivity |].
    apply (deflection_correction_ss _ _ _ rows 0 (qc (1 # 50))
             {| length := qc (1 # 50); E := qc 200000000000; I := qc (83 # 1000000) |}).
    + reflexivity.
    + exact HEI.
    + reflexivity.
    + left; reflexivity.
    + right; left; reflexivity.
    + exact H.
  - vm_compute in H. discriminate.
Defined.

(* ------------------------------------------------------------------------- *)
(** ** Errors of the support dispatch *)

Lemma solve_beam_reactions_err properties supports loads m :
  (forall len, reactions_of len supports loads = Err m) ->
  solve_beam properties supports loads
  = match prelude properties with Ok _ => Err m | Err e => Err e end.
Proof.
  intros H. unfold solve_beam, analyse, prelude.
  destruct (read_properties properties) as [bp |]; simpl; [| reflexivity].
  destruct (make_grid (length bp)) as [g |]; simpl; [| reflexivity].
  rewrite H. reflexivity.
Qed.

Lemma calculate_reactions_simply_supported_no_zero_division len supports loads :
  calculate_reactions_simply_supported len supports loads <> Err ZeroDivisionError.
Proof.
  unfold calculate_reactions_simply_supported, py_div. rewrite load_totals_eq.
  destruct (eq_b _ 0); discriminate.
Qed.

Lemma reactions_of_coincident len supports loads p :
  is_ss supports = true -> In (pinned p) supports -> In (roller p) supports ->
  reactions_of len supports loads = Err (AnalysisError SupportsSamePosition).
Proof.
  intros Hss Hp Hr. destruct (pinned_roller_positions _ _ _ Hss Hp Hr) as [Hnp Hnr].
  unfold reactions_of. rewrite Hss.
  unfold calculate_reactions_simply_supported, next_position_or. rewrite Hnp, Hnr, load_totals_eq.
  replace (eq_b (p - p) 0) with true by (symmetry; apply eq_b_true; ring). reflexivity.
Qed.

Lemma apply_boundary_conditions_coincident supports x d p r ip ir :
  next_position "pinned" supports = Some p -> next_position "roller" supports = Some r ->
  argmin (map (fun xi => abs (xi - p)) x) = Ok ip ->
  argmin (map (fun xi => abs (xi - r)) x) = Ok ir ->
  nth ir x 0 - nth ip x 0 = 0 ->
  apply_boundary_conditions supports false true x d = Err (AnalysisError DeflectionSupportsSamePosition).
Proof.
  intros Hp Hr Hip Hir Hz. unfold apply_boundary_conditions. simpl.
  rewrite Hp, Hr, Hip. simpl. rewrite Hir. simpl.
  replace (eq_b (nth ir x 0 - nth ip x 0) 0) with true by (symmetry; apply eq_b_true; exact Hz).
  reflexivity.
Qed.

Lemma str_in_true s l : str_in s l = true <-> In s l.
Proof.
  unfold str_in. rewrite existsb_exists. split.
  - intros (y & Hy & He). apply String.eqb_eq in He. subst. exact Hy.
  - intros H. exists s. split; [exact H | apply String.eqb_refl].
Qed.

Lemma in_insert_sorted a s l : In a (insert_sorted s l) <-> s = a \/ In a l.
Proof.
  induction l as [| h t IH]; simpl; [tauto |].
  destruct (String.leb s h); simpl; [tauto | rewrite IH; tauto].
Qed.

Lemma in_sorted a l : In a (sorted l) <-> In a l.
Proof.
  induction l as [| h t IH]; simpl; [tauto |]. rewrite in_insert_sorted, IH. tauto.
Qed.

Lemma no_pinned_no_fixed_unrecognised supports :
  ~ In "pinned"%string (map s_type supports) -> ~ In "fixed"%string (map s_type supports) ->
  is_ss supports = false /\ is_cantilever supports = false.
Proof.
  intros Hp Hf. split.
  - destruct (is_ss supports) eqn:H; auto. unfold is_ss in H. apply strings_eqb_true in H.
    exfalso. apply Hp, in_sorted. rewrite H. left. reflexivity.
  - destruct (is_cantilever supports) eqn:H; auto. unfold is_cantilever in H.
    apply andb_true_iff in H as [H _]. apply strings_eqb_true in H.
    exfalso. apply Hf, in_sorted. rewrite H. left. reflexivity.
Qed.

(* ------------------------------------------------------------------------- *)
(** ** C7: coincident supports *)

(** C7.  When the pinned and roller supports of a simply-supported beam
    coincide, [solve_beam] raises the coincident-supports [AnalysisError]
    once the properties and the grid are valid (an invalid property or grid
    raises its own error first) and never returns a result; the reaction
    solver tests the span before dividing by it, so it never raises a
    [ZeroDivisionError]; and the correction line is never computed when the
    two support grid positions coincide. *)
Theorem coincident_supports_error properties supports loads p :
  is_ss supports = true -> In (pinned p) supports -> In (roller p) supports ->
  solve_beam properties supports loads
  = match prelude properties with
    | Ok _ => Err (AnalysisError SupportsSamePosition)
    | Err e => Err e
    end
  /\ (forall len, calculate_reactions_simply_supported len supports loads
                  = Err (AnalysisError SupportsSamePosition))
  /\ (forall len supports' loads',
        calculate_reactions_simply_supported len supports' loads' <> Err ZeroDivisionError)
  /\ (forall supports' x d p' r' ip ir,
        next_position "pinned" supports' = Some p' -> next_position "roller" supports' = Some r' ->
        argmin (map (fun xi => abs (xi - p')) x) = Ok ip ->
        argmin (map (fun xi => abs (xi - r')) x) = Ok ir ->
        nth ir x 0 - nth ip x 0 = 0 ->
        apply_boundary_conditions supports' false true x d
        = Err (AnalysisError DeflectionSupportsSamePosition)).
Proof.
  intros Hss Hp Hr. split; [| split; [| split]].
  - apply solve_beam_reactions_err. intros len. eapply reactions_of_coincident; eauto.
  - intros len. pose proof (reactions_of_coincident len supports loads p Hss Hp Hr) as H.
    unfold reactions_of in H. rewrite Hss in H. exact H.
  - apply calculate_reactions_simply_supported_no_zero_division.
  - intros. eapply apply_boundary_conditions_coincident; eauto.
Qed.

Lemma coincident_supports_error_witness :
  (is_ss [pinned 0; roller 0] = true /\ In (pinned 0) [pinned 0; roller 0]
   /\ In (roller 0) [pinned 0; roller 0])
  /\ solve_beam (beam (qc 10)) [pinned 0; roller 0] [Point (qc (-10000)) (qc 5)]
     = Err (AnalysisError SupportsSamePosition).
Proof.
  split; [split; [reflexivity | split; [left | right; left]; reflexivity] |].
  destruct (coincident_supports_error (beam (qc 10)) [pinned 0; roller 0]
              [Point (qc (-10000)) (qc 5)] 0 eq_refl (or_introl eq_refl)
              (or_intror (or_introl eq_refl))) as [H _].
  rewrite H. vm_compute. reflexivity.
Defined.

(* ------------------------------------------------------------------------- *)
(** ** C8: unrecognised support patterns *)

(** C8.  A support list that is neither one pinned plus one roller nor a
    single fixed support makes the dispatch raise a configuration error
    before any reaction is computed (after the property and grid errors,
    which come first); when the list has neither a pinned nor a fixed
    support the error is the "unstable" one, distinct from the generic
    unsupported-combination error. *)
Theorem unrecognised_supports_error :
  (forall properties supports loads,
     is_ss supports = false -> is_cantilever supports = false ->
     exists m,
       (m = UnstableStructure \/ m = UnsupportedCombination (sorted (map s_type supports)))
       /\ (forall len, reactions_of len supports loads = Err (AnalysisError m))
       /\ solve_beam properties supports loads
          = match prelude properties with Ok _ => Err (AnalysisError m) | Err e => Err e end)
  /\ (forall properties supports loads,
        ~ In "pinned"%string (map s_type supports) -> ~ In "fixed"%string (map s_type supports) ->
        (forall len, reactions_of len supports loads = Err (AnalysisError UnstableStructure))
        /\ solve_beam properties supports loads
           = match prelude properties with
             | Ok _ => Err (AnalysisError UnstableStructure)
             | Err e => Err e
             end)
  /\ (forall types, UnstableStructure <> UnsupportedCombination types).
Proof.
  split; [| split].
  - intros properties supports loads Hss Hc.
    set (types := sorted (map s_type supports)).
    exists (if negb (str_in "pinned" types) && negb (str_in "fixed" types)
            then UnstableStructure else UnsupportedCombination types).
    assert (Hr : forall len, reactions_of len supports loads
      = Err (AnalysisError (if negb (str_in "pinned" types) && negb (str_in "fixed" types)
                            then UnstableStructure else UnsupportedCombination types))).
    { intros len. unfold reactions_of. rewrite Hss, Hc. fold types.
      destruct (negb (str_in "pinned" types) && negb (str_in "fixed" types)); reflexivity. }
    split; [| split; [exact Hr | apply solve_beam_reactions_err; exact Hr]].
    destruct (negb (str_in "pinned" types) && negb (str_in "fixed" types)); auto.
  - intros properties supports loads Hp Hf.
    destruct (no_pinned_no_fixed_unrecognised _ Hp Hf) as [Hss Hc].
    assert (Hr : forall len, reactions_of len supports loads = Err (AnalysisError UnstableStructure)).
    { intros len. unfold reactions_of. rewrite Hss, Hc.
      assert (Hp' : str_in "pinned" (sorted (map s_type supports)) = false).
      { destruct (str_in _ _) eqn:E; auto. apply str_in_true, (proj1 (in_sorted _ _)) in E. contradiction. }
      assert (Hf' : str_in "fixed" (sorted (map s_type supports)) = false).
      { destruct (str_in "fixed" (sorted (map s_type supports))) eqn:E; auto. apply str_in_true, (proj1 (in_sorted _ _)) in E. contradiction. }
      rewrite Hp', Hf'. reflexivity. }
    split; [exact Hr | apply solve_beam_reactions_err; exact Hr].
  - intros types H. discriminate.
Qed.

Lemma unrecognised_supports_error_witness :
  solve_beam (beam (qc 10)) [roller 0; roller (qc 10)] [Point (qc (-10000)) (qc 5)]
  = Err (AnalysisError UnstableStructure)
  /\ solve_beam (beam (qc 10)) [fixed 0; fixed (qc 10)] []
     = Err (AnalysisError (UnsupportedCombination ["fixed"%string; "fixed"%string])).
Proof.
  destruct unrecognised_supports_error as (H1 & H2 & _). split.
  - destruct (H2 (beam (qc 10)) [roller 0; roller (qc 10)] [Point (qc (-10000)) (qc 5)])
      as [_ H].
    + simpl. intros [H | [H | []]]; discriminate.
    + simpl. intros [H | [H | []]]; discriminate.
    + rewrite H. vm_compute. reflexivity.
  - destruct (H1 (beam (qc 10)) [fixed 0; fixed (qc 10)] [] eq_refl eq_refl)
      as (m & _ & Hr & H).
    specialize (Hr (qc 10)). vm_compute in Hr. injection Hr as <-.
    rewrite H. vm_compute. reflexivity.
Defined.

(* ------------------------------------------------------------------------- *)
(** ** Beam properties: conversion, defaults, and the unused stiffness check *)

Lemma read_properties_fill_defaults properties :
  read_properties (fill_defaults properties) = read_properties properties.
Proof.
  unfold read_properties, fill_defaults. simpl.
  destruct (prop_length properties), (prop_E properties), (prop_I properties); reflexivity.
Qed.

Lemma solve_beam_fill_defaults properties supports loads :
  solve_beam (fill_defaults properties) supports loads = solve_beam properties supports loads.
Proof.
  unfold solve_beam, analyse. rewrite read_properties_fill_defaults. reflexivity.
Qed.

Lemma read_properties_defaults properties bp :
  read_properties properties = Ok bp ->
  (prop_length properties = None -> length bp = qc 10)
  /\ (prop_E properties = None -> E bp = qc 200000000000)
  /\ (prop_I properties = None -> I bp = qc (83 # 1000000)).
Proof.
  unfold read_properties.
  destruct (prop_length properties) as [[l | |] |], (prop_E properties) as [[e | |] |],
    (prop_I properties) as [[i | |] |]; simpl; intros H; inversion H; subst;
    repeat split; intros; try discriminate; reflexivity.
Qed.

Lemma read_properties_invalid properties :
  invalid_value (prop_length properties) || invalid_value (prop_E properties)
  || invalid_value (prop_I properties) = true ->
  read_properties properties = Err (AnalysisError InvalidBeamProperty).
Proof.
  unfold read_properties.
  destruct (prop_length properties) as [[l | |] |], (prop_E properties) as [[e | |] |],
    (prop_I properties) as [[i | |] |]; simpl; intros H; try discriminate; reflexivity.
Qed.

Lemma solve_beam_read_err properties supports loads e :
  read_properties properties = Err e -> solve_beam properties supports loads = Err e.
Proof. unfold solve_beam, analyse. intros H. rewrite H. reflexivity. Qed.

Lemma analyse_no_EI_error properties supports loads :
  analyse properties supports loads <> Err (AnalysisError EIUndefined).
Proof.
  unfold analyse. destruct (read_properties properties) as [bp | e] eqn:Hp; simpl.
  - destruct (make_grid (length bp)) as [g | e] eqn:Hg; simpl.
    + destruct (reactions_of (length bp) supports loads) as [[r i] | e] eqn:Hr; simpl;
        [discriminate |].
      intros H. inversion H; subst. unfold reactions_of in Hr.
      destruct (is_ss supports).
      * unfold calculate_reactions_simply_supported, py_div in Hr. rewrite load_totals_eq in Hr.
        destruct (eq_b _ 0); discriminate.
      * destruct (is_cantilever supports).
        -- unfold calculate_reactions_cantilever in Hr. destruct supports; [discriminate |].
           rewrite load_totals_eq in Hr. discriminate.
        -- destruct (_ && _); discriminate.
    + intros H. inversion H; subst. unfold make_grid, linspace, py_div in Hg.
      destruct (_ <? 0)%Z; simpl in Hg; [discriminate |]. destruct (eq_b _ 0); discriminate.
  - intros H. inversion H; subst. unfold read_properties in Hp.
    destruct (prop_length properties) as [[l | |] |], (prop_E properties) as [[e | |] |],
      (prop_I properties) as [[i | |] |]; simpl in Hp; discriminate.
Qed.

Lemma apply_boundary_conditions_error supports c ss x d d' :
  error_of (apply_boundary_conditions supports c ss x d)
  = error_of (apply_boundary_conditions supports c ss x d').
Proof.
  unfold apply_boundary_conditions. destruct c; [reflexivity |]. destruct ss; [| reflexivity].
  destruct (next_position "pinned" supports), (next_position "roller" supports); try reflexivity.
  destruct (argmin (map (fun xi => abs (xi - q)) x)); simpl; [| reflexivity].
  destruct (argmin (map (fun xi => abs (xi - q0)) x)); simpl; [| reflexivity].
  destruct (eq_b _ 0); reflexivity.
Qed.

Lemma argmin_err v e : argmin v = Err e -> e = ValueError.
Proof. destruct v; simpl; intros H; inversion H; reflexivity. Qed.

Lemma solve_beam_no_EI_error properties supports loads :
  solve_beam properties supports loads <> Err (AnalysisError EIUndefined).
Proof.
  unfold solve_beam. destruct (analyse properties supports loads) as [st | e] eqn:Ha; simpl.
  - destruct (apply_boundary_conditions _ _ _ _ _) as [d | e] eqn:Hb; simpl; [discriminate |].
    intros H. inversion H; subst. unfold apply_boundary_conditions in Hb.
    destruct (st_is_cantilever st); [discriminate |]. destruct (st_is_ss st); [| discriminate].
    destruct (next_position "pinned" supports) as [p |], (next_position "roller" supports) as [r |];
      try discriminate.
    destruct (argmin (map (fun xi => abs (xi - p)) (x (st_grid st)))) eqn:E1; simpl in Hb;
      [| apply argmin_err in E1; congruence].
    destruct (argmin (map (fun xi => abs (xi - r)) (x (st_grid st)))) eqn:E2; simpl in Hb;
      [| apply argmin_err in E2; congruence].
    destruct (eq_b _ 0); discriminate.
  - intros H. inversion H; subst. exact (analyse_no_EI_error _ _ _ Ha).
Qed.

Lemma read_properties_with_EI properties e i :
  read_properties (with_EI properties e i)
  = match py_float (get (prop_length properties) (PyFloat (qc 10))) with
    | Ok len => Ok {| length := len; E := e; I := i |}
    | Err _ => Err (AnalysisError InvalidBeamProperty)
    end.
Proof. unfold read_properties, with_EI. destruct (prop_length properties) as [[l | |] |]; reflexivity. Qed.

Lemma error_of_bind_ok {A B} (r : result A) (f : A -> B) :
  error_of (bind r (fun a => Ok (f a))) = error_of r.
Proof. destruct r; reflexivity. Qed.

(** The errors of [solve_beam] do not depend on the values of [E] and [I]. *)
Lemma solve_beam_error_independent_of_EI properties supports loads e i e' i' :
  error_of (solve_beam (with_EI properties e i) supports loads)
  = error_of (solve_beam (with_EI properties e' i') supports loads).
Proof.
  unfold solve_beam, analyse. rewrite !read_properties_with_EI.
  destruct (py_float (get (prop_length properties) (PyFloat (qc 10)))) as [len |];
    cbn [bind]; [| reflexivity].
  cbn [length]. destruct (make_grid len) as [g |]; cbn [bind]; [| reflexivity].
  destruct (reactions_of len supports loads) as [[r init] |]; cbn [bind]; [| reflexivity].
  cbn [is_none orb E I bind st_is_cantilever st_is_ss st_grid st_deflection_raw].
  rewrite !error_of_bind_ok. apply apply_boundary_conditions_error.
Qed.

Lemma read_properties_err_invalid properties e :
  read_properties properties = Err e ->
  invalid_value (prop_length properties) || invalid_value (prop_E properties)
  || invalid_value (prop_I properties) = true.
Proof.
  unfold read_properties.
  destruct (prop_length properties) as [[l | |] |], (prop_E properties) as [[e' | |] |],
    (prop_I properties) as [[i | |] |]; simpl; intros H; try discriminate; reflexivity.
Qed.

(* ------------------------------------------------------------------------- *)
(** ** C5: validation of the beam properties *)

(** C5 (as stated: invalid or missing stiffness makes [solve] fail) does not
    hold: with [E = 0] and [I = -1], and with [E] and [I] absent, [solve_beam]
    returns a table. *)
Lemma stiffness_unchecked_counterexample :
  (exists rows, solve_beam (with_values (qc (1 # 50)) 0 (qc (-1))) [pinned 0; roller (qc (1 # 50))]
                  [Point (qc (-10)) (qc (1 # 100))] = Ok rows)
  /\ (exists rows, solve_beam (beam (qc (1 # 50))) [pinned 0; roller (qc (1 # 50))]
                     [Point (qc (-10)) (qc (1 # 100))] = Ok rows).
Proof.
  split.
  - destruct (solve_beam (with_values (qc (1 # 50)) 0 (qc (-1))) [pinned 0; roller (qc (1 # 50))]
                [Point (qc (-10)) (qc (1 # 100))]) as [rows | e] eqn:H.
    + exists rows. reflexivity.
    + vm_compute in H. discriminate.
  - destruct (solve_beam (beam (qc (1 # 50))) [pinned 0; roller (qc (1 # 50))]
                [Point (qc (-10)) (qc (1 # 100))]) as [rows | e] eqn:H.
    + exists rows. reflexivity.
    + vm_compute in H. discriminate.
Qed.

(** C5 (amended).  A length, [E] or [I] present with a value [float()]
    rejects makes [solve_beam] fail with the invalid-property error before
    any computation; an absent length, [E] or [I] is replaced by its default
    ([10.0], [200e9], [8.3e-5]): [solve_beam] behaves as with the defaults
    filled in and reads those values; the check that [E] or [I] is undefined
    never fires, and the error outcome of [solve_beam] is the same for all
    values of [E] and [I], zero and negative ones included. *)
Theorem property_validation properties supports loads :
  (invalid_value (prop_length properties) || invalid_value (prop_E properties)
   || invalid_value (prop_I properties) = true ->
   solve_beam properties supports loads = Err (AnalysisError InvalidBeamProperty))
  /\ solve_beam properties supports loads <> Err (AnalysisError EIUndefined)
  /\ (forall e i e' i',
        error_of (solve_beam (with_EI properties e i) supports loads)
        = error_of (solve_beam (with_EI properties e' i') supports loads))
  /\ solve_beam properties supports loads = solve_beam (fill_defaults properties) supports loads
  /\ (forall bp, read_properties properties = Ok bp ->
        (prop_length properties = None -> length bp = qc 10)
        /\ (prop_E properties = None -> E bp = qc 200000000000)
        /\ (prop_I properties = None -> I bp = qc (83 # 1000000))).
Proof.
  split; [| split; [| split; [| split]]].
  - intros H. apply solve_beam_read_err, read_properties_invalid, H.
  - apply solve_beam_no_EI_error.
  - intros. apply solve_beam_error_independent_of_EI.
  - symmetry. apply solve_beam_fill_defaults.
  - intros bp. apply read_properties_defaults.
Qed.

Lemma property_validation_witness :
  invalid_value (Some PyUnconvertible) || invalid_value None || invalid_value None = true
  /\ solve_beam {| prop_length := Some PyUnconvertible; prop_E := None; prop_I := None |}
       [pinned 0; roller (qc 10)] [] = Err (AnalysisError InvalidBeamProperty).
Proof.
  split; [reflexivity |].
  apply (proj1 (property_validation
                  {| prop_length := Some PyUnconvertible; prop_E := None; prop_I := None |}
                  [pinned 0; roller (qc 10)] [])).
  reflexivity.
Defined.

(* ------------------------------------------------------------------------- *)
(** ** C10: defaults for absent properties *)

(** C10.  An absent [length], [E] or [I] raises no error: [solve_beam]
    behaves exactly as with the defaults [10.0], [200e9] and [8.3e-5] filled
    in, reads those values, and with all three absent computes the full
    2001-sample series of a simply-supported beam; no positivity check is
    made: the errors do not depend on [E] and [I], and a negative length with
    [E = 0] and [I = -1] still returns a table. *)
Theorem missing_properties_defaults :
  (forall properties supports loads,
     solve_beam properties supports loads = solve_beam (fill_defaults properties) supports loads)
  /\ (forall properties bp,
        read_properties properties = Ok bp ->
        (prop_length properties = None -> length bp = qc 10)
        /\ (prop_E properties = None -> E bp = qc 200000000000)
        /\ (prop_I properties = None -> I bp = qc (83 # 1000000)))
  /\ (forall properties e,
        read_properties properties = Err e ->
        invalid_value (prop_length properties) || invalid_value (prop_E properties)
        || invalid_value (prop_I properties) = true)
  /\ (exists rows, solve_beam all_absent [pinned 0; roller (qc 10)] [Point (qc (-10000)) (qc 5)]
                   = Ok rows /\ List.length rows = 2001%nat)
  /\ (forall properties supports loads e i e' i',
        error_of (solve_beam (with_EI properties e i) supports loads)
        = error_of (solve_beam (with_EI properties e' i') supports loads))
  /\ (exists rows, solve_beam (with_values (qc (-3 # 500)) 0 (qc (-1))) [fixed 0] [] = Ok rows).
Proof.
  split; [| split; [| split; [| split; [| split]]]].
  - intros. symmetry. apply solve_beam_fill_defaults.
  - apply read_properties_defaults.
  - apply read_properties_err_invalid.
  - destruct (solve_beam all_absent [pinned 0; roller (qc 10)] [Point (qc (-10000)) (qc 5)])
      as [rows | e] eqn:H.
    + exists rows. split; [reflexivity |].
      assert (Hl : match solve_beam all_absent [pinned 0; roller (qc 10)] [Point (qc (-10000)) (qc 5)]
                   with Ok rows => List.length rows = 2001%nat | Err _ => False end)
        by (vm_compute; reflexivity).
      rewrite H in Hl. exact Hl.
    + assert (Hl : match solve_beam all_absent [pinned 0; roller (qc 10)] [Point (qc (-10000)) (qc 5)]
                   with Ok rows => True | Err _ => False end)
        by (vm_compute; trivial).
      rewrite H in Hl. destruct Hl.
  - intros. apply solve_beam_error_independent_of_EI.
  - destruct (solve_beam (with_values (qc (-3 # 500)) 0 (qc (-1))) [fixed 0] []) as [rows | e] eqn:H.
    + exists rows. reflexivity.
    + vm_compute in H. discriminate.
Qed.

Lemma missing_properties_defaults_witness :
  solve_beam all_absent [fixed 0] [] = solve_beam (fill_defaults all_absent) [fixed 0] []
  /\ (read_properties all_absent = Ok {| length := qc 10; E := qc 200000000000; I := qc (83 # 1000000) |}
      /\ length {| length := qc 10; E := qc 200000000000; I := qc (83 # 1000000) |} = qc 10).
Proof.
  destruct missing_properties_defaults as (H1 & H2 & _).
  split; [apply H1 |]. split; [reflexivity |].
  apply (H2 all_absent); reflexivity.
Defined.

(* ------------------------------------------------------------------------- *)
(** ** The size and positions of the grid *)

Lemma qc_of_Z_nz z : z <> 0%Z -> qc_of_Z z <> 0.
Proof.
  intros Hz H. unfold qc_of_Z in H. change 0 with (Q2Qc 0) in H.
  apply Q2Qc_eq_iff in H. unfold Qeq in H. simpl in H. lia.
Qed.

Lemma qc_lt_Q (a b : Q) : (a < b)%Q -> Q2Qc a < Q2Qc b.
Proof. intros H. unfold Qclt. simpl. rewrite !Qred_correct. exact H. Qed.

Lemma qc_of_Z_pos z : (0 < z)%Z -> 0 < qc_of_Z z.
Proof. intros Hz. apply qc_lt_Q. unfold Qlt. simpl. lia. Qed.

Lemma qc_of_nat_lt i j : (i < j)%nat -> qc_of_nat i < qc_of_nat j.
Proof. intros H. apply qc_lt_Q. unfold Qlt. simpl. lia. Qed.

Lemma qc_div_pos a b : 0 < a -> 0 < b -> 0 < a / b.
Proof.
  unfold Qclt, Qcdiv, Qcmult, Qcinv. cbn [this Q2Qc]. intros Ha Hb.
  rewrite !Qred_correct. apply Qmult_lt_0_compat; [exact Ha |].
  apply Qinv_lt_0_compat. exact Hb.
Qed.

Lemma py_int_nonneg a : 0 < a -> py_int (a * qc 200) = Qfloor (a * qc 200)%Qc /\ (0 <= Qfloor (a * qc 200)%Qc)%Z.
Proof.
  intros Ha. assert (H : (0 <= this (a * qc 200))%Q).
  { unfold Qcmult. cbn [this Q2Qc]. rewrite !Qred_correct. apply Qmult_le_0_compat.
    - apply Qlt_le_weak. exact Ha.
    - unfold Qle. simpl. lia. }
  unfold py_int. replace (Qle_bool 0 (a * qc 200)%Qc) with true by (symmetry; apply Qle_bool_iff; exact H).
  split; [reflexivity |]. change 0%Z with (Qfloor 0). apply Qfloor_resp_le. exact H.
Qed.

Lemma qc_of_nat_0 : qc_of_nat 0 = 0.
Proof. reflexivity. Qed.

(** Claim C6 (counterexample). For the length -0.006 the code computes
    [num_points = int(-1.2) + 1 = 0]: a cantilever with no load returns an
    empty table, not [floor(-1.2) + 1 = -1] rows on a grid from 0 to the
    length. *)
Lemma grid_size_counterexample :
  solve_beam (beam (qc (-3 # 500))) [fixed 0] [] = Ok []
  /\ Z.of_nat (List.length (@nil row)) <> (Qfloor (qc (-3 # 500) * qc 200)%Qc + 1)%Z.
Proof. split; vm_compute; [reflexivity | discriminate]. Qed.

(** Claim C6 (amended). For a positive length, a table that [solve_beam]
    returns has [N = floor(length * 200) + 1] rows with [N >= 2]; the
    spacing [dx] of the analysis is [length / (N - 1)] and positive; the
    position of row [i] is [i * length / (N - 1)], the first position is 0,
    the last is the length, and positions are strictly ascending. Each row
    is a record with the five fields position, shear, moment, slope and
    deflection. *)
Theorem result_grid properties supports loads bp rows :
  read_properties properties = Ok bp -> 0 < length bp ->
  solve_beam properties supports loads = Ok rows ->
  Z.of_nat (List.length rows) = (Qfloor (length bp * qc 200)%Qc + 1)%Z
  /\ (2 <= Z.of_nat (List.length rows))%Z
  /\ (exists st, analyse properties supports loads = Ok st
        /\ dx (st_grid st) = length bp / qc_of_Z (Z.of_nat (List.length rows) - 1)
        /\ 0 < dx (st_grid st))
  /\ (forall i, (i < List.length rows)%nat ->
        nth i (map Position_m rows) 0
        = qc_of_nat i * (length bp / qc_of_Z (Z.of_nat (List.length rows) - 1)))
  /\ nth 0 (map Position_m rows) 0 = 0
  /\ nth (List.length rows - 1) (map Position_m rows) 0 = length bp
  /\ (forall i j, (i < j < List.length rows)%nat ->
        nth i (map Position_m rows) 0 < nth j (map Position_m rows) 0).
Proof.
  intros Hp Hlen Hs.
  destruct (solve_beam_ok _ _ _ _ Hs) as (st & d & Ha & _ & Hrows).
  destruct (analyse_ok _ _ _ _ Ha) as (bp' & g & r & im & Hp' & Hg & _ & _ & Hgg & _).
  rewrite Hp in Hp'. injection Hp' as Hb. subst bp'.
  destruct (make_grid_ok _ _ Hg) as (HN & Hlx & HN0 & HN1 & Hdx & Hls).
  destruct (py_int_nonneg _ Hlen) as [Hpi Hfl].
  assert (Hlr : List.length rows = Z.to_nat (num_points g)).
  { rewrite Hrows, dataframe_length, Hgg. exact Hlx. }
  assert (HNz : Z.of_nat (List.length rows) = num_points g) by (rewrite Hlr; lia).
  assert (H2 : (2 <= num_points g)%Z) by lia.
  rewrite HNz.
  assert (Hpos : forall i, (i < List.length rows)%nat ->
            nth i (map Position_m rows) 0
            = qc_of_nat i * (length bp / qc_of_Z (num_points g - 1))).
  { intros i Hi. rewrite Hlr in Hi. rewrite <- Hlx in Hi.
    rewrite Hrows, Hgg. rewrite (proj1 (dataframe_columns _ _ _ _ _ _ Hi)).
    rewrite Hlx in Hi. rewrite (linspace_nth _ _ _ _ Hls Hi).
    destruct ((1 <? num_points g) && (Z.of_nat i =? num_points g - 1))%Z eqn:Hc.
    - apply andb_true_iff in Hc as [_ Hc]. apply Z.eqb_eq in Hc.
      unfold qc_of_nat. rewrite Hc. field. apply qc_of_Z_nz. lia.
    - replace (0 <? num_points g - 1)%Z with true by (symmetry; apply Z.ltb_lt; lia).
      unfold Qcdiv. ring. }
  assert (Hd : 0 < length bp / qc_of_Z (num_points g - 1)).
  { apply qc_div_pos; [exact Hlen | apply qc_of_Z_pos; lia]. }
  split; [lia |]. split; [lia |]. split.
  { exists st. split; [exact Ha |]. rewrite Hgg. split; [exact Hdx |]. rewrite Hdx. exact Hd. }
  split; [exact Hpos |]. split.
  { rewrite Hpos by lia. rewrite qc_of_nat_0. ring. }
  split.
  { rewrite Hpos by lia.
    replace (qc_of_nat (List.length rows - 1)) with (qc_of_Z (num_points g - 1))
      by (unfold qc_of_nat; f_equal; lia).
    field. apply qc_of_Z_nz. lia. }
  intros i j [Hij Hj]. rewrite !Hpos by lia.
  apply Qcmult_lt_compat_r; [exact Hd |]. apply qc_of_nat_lt. exact Hij.
Qed.

Lemma result_grid_witness :
  exists bp rows,
    read_properties (beam (qc (1 # 100))) = Ok bp /\ 0 < length bp
    /\ solve_beam (beam (qc (1 # 100))) [fixed 0] [] = Ok rows
    /\ Z.of_nat (List.length rows) = (Qfloor (length bp * qc 200)%Qc + 1)%Z.
Proof.
  destruct (read_properties (beam (qc (1 # 100)))) as [bp | e] eqn:Hp;
    [| vm_compute in Hp; discriminate].
  destruct (solve_beam (beam (qc (1 # 100))) [fixed 0] []) as [rows | e] eqn:Hs;
    [| vm_compute in Hs; discriminate].
  assert (Hl : 0 < length bp) by (vm_compute in Hp; injection Hp as <-; vm_compute; reflexivity).
  exists bp, rows. split; [reflexivity |]. split; [exact Hl |]. split; [reflexivity |].
  exact (proj1 (result_grid _ _ _ _ _ Hp Hl Hs)).
Defined.

(* ------------------------------------------------------------------------- *)
(** ** Scaling the loads *)

Lemma resultant_scale c l :
  resultant_force (scale_load c l) = c * resultant_force l
  /\ resultant_position (scale_load c l) = resultant_position l.
Proof. destruct l; simpl; split; first [reflexivity | ring]. Qed.

Lemma F_total_scale c loads : F_total (map (scale_load c) loads) = c * F_total loads.
Proof.
  induction loads as [| l t IH]; unfold F_total in *; cbn [map fold_right]; [ring |].
  rewrite IH, (proj1 (resultant_scale c l)). ring.
Qed.

Lemma M_about_scale c q loads : M_about q (map (scale_load c) loads) = c * M_about q loads.
Proof.
  induction loads as [| l t IH]; unfold M_about in *; cbn [map fold_right]; [ring |].
  rewrite IH, (proj1 (resultant_scale c l)), (proj2 (resultant_scale c l)). ring.
Qed.

Lemma load_totals_scale c pivot loads :
  load_totals pivot (map (scale_load c) loads) = (c * F_total loads, c * M_about pivot loads).
Proof. rewrite load_totals_eq, F_total_scale, M_about_scale. reflexivity. Qed.

Lemma scale_dict_cons c k v t : scale_dict c ((k, v) :: t) = (k, c * v) :: scale_dict c t.
Proof. reflexivity. Qed.

Lemma dict_set_scale c k v d : dict_set k (c * v) (scale_dict c d) = scale_dict c (dict_set k v d).
Proof.
  induction d as [| [k' v'] t IH]; [reflexivity |].
  rewrite scale_dict_cons. cbn [dict_set]. destruct (eq_b k k').
  - reflexivity.
  - rewrite IH, scale_dict_cons. reflexivity.
Qed.

Lemma fold_dict_scale c kvs d :
  fold_left (fun d kv => dict_set (fst kv) (snd kv) d) (scale_dict c kvs) (scale_dict c d)
  = scale_dict c (fold_left (fun d kv => dict_set (fst kv) (snd kv) d) kvs d).
Proof.
  revert d; induction kvs as [| [k v] t IH]; intros d; [reflexivity |].
  rewrite scale_dict_cons. cbn [fold_left fst snd]. rewrite dict_set_scale. apply IH.
Qed.

Lemma dict_of_scale c kvs : dict_of (scale_dict c kvs) = scale_dict c (dict_of kvs).
Proof. exact (fold_dict_scale c kvs []). Qed.

Lemma calculate_reactions_simply_supported_scale c len supports loads :
  calculate_reactions_simply_supported len supports (map (scale_load c) loads)
  = result_map (fun rm => (scale_dict c (fst rm), c * snd rm))
      (calculate_reactions_simply_supported len supports loads).
Proof.
  unfold calculate_reactions_simply_supported. cbv zeta.
  rewrite load_totals_scale, load_totals_eq.
  set (F := F_total loads). set (M := M_about _ loads).
  set (e := next_position_or "roller"%string supports len - next_position_or "pinned"%string supports 0).
  destruct (eq_b e 0) eqn:Hz; [reflexivity |].
  unfold py_div. rewrite Hz. cbn [bind result_map fst snd].
  rewrite <- dict_of_scale, !scale_dict_cons.
  replace (- (c * F) - - (c * M) / e) with (c * (- F - - M / e)) by (unfold Qcdiv; ring).
  replace (- (c * M) / e) with (c * (- M / e)) by (unfold Qcdiv; ring).
  replace (c * 0) with 0 by ring. reflexivity.
Qed.

Lemma calculate_reactions_cantilever_scale c supports loads :
  calculate_reactions_cantilever supports (map (scale_load c) loads)
  = result_map (fun rm => (scale_dict c (fst rm), c * snd rm))
      (calculate_reactions_cantilever supports loads).
Proof.
  destruct supports as [| s0 t]; [reflexivity |].
  cbn [calculate_reactions_cantilever]. rewrite load_totals_scale, load_totals_eq.
  cbn [result_map fst snd]. rewrite <- dict_of_scale, scale_dict_cons.
  replace (- (c * F_total loads)) with (c * - F_total loads) by ring.
  replace (- (c * M_about (s_position s0) loads)) with (c * - M_about (s_position s0) loads) by ring.
  reflexivity.
Qed.

Lemma reactions_of_scale c len supports loads :
  reactions_of len supports (map (scale_load c) loads)
  = result_map (fun rm => (scale_dict c (fst rm), c * snd rm)) (reactions_of len supports loads).
Proof.
  unfold reactions_of. destruct (is_ss supports).
  - apply calculate_reactions_simply_supported_scale.
  - destruct (is_cantilever supports).
    + apply calculate_reactions_cantilever_scale.
    + destruct (_ && _); reflexivity.
Qed.

Lemma nth_vscale v c i : nth i (vscale v c) 0 = nth i v 0 * c.
Proof.
  revert i; induction v as [| a v IH]; intros [| i]; cbn [nth vscale map]; try ring.
  apply IH.
Qed.

Lemma reaction_shear_scale xi c rs :
  fold_right (fun r acc => spec_reaction_shear xi r + acc) 0 (scale_dict c rs)
  = c * fold_right (fun r acc => spec_reaction_shear xi r + acc) 0 rs.
Proof.
  induction rs as [| [p v] t IH]; [cbn; ring |].
  rewrite scale_dict_cons. cbn [fold_right]. rewrite IH.
  unfold spec_reaction_shear. cbn [fst snd]. destruct (ge_b xi p); ring.
Qed.

Lemma load_shear_scale xi c loads :
  fold_right (fun l acc => spec_load_shear xi l + acc) 0 (map (scale_load c) loads)
  = c * fold_right (fun l acc => spec_load_shear xi l + acc) 0 loads.
Proof.
  induction loads as [| l t IH]; [cbn; ring |].
  cbn [map fold_right]. rewrite IH.
  destruct l; cbn [scale_load spec_load_shear];
    repeat match goal with |- context [if ?b then _ else _] => destruct b end; ring.
Qed.

Lemma shear_scale c x reactions loads :
  shear x (scale_dict c reactions) (map (scale_load c) loads) = vscale (shear x reactions loads) c.
Proof.
  apply (nth_ext _ _ 0 0).
  - unfold vscale. rewrite length_map, !shear_length. reflexivity.
  - intros i Hi. rewrite shear_length in Hi.
    rewrite nth_vscale, !shear_nth by exact Hi.
    rewrite reaction_shear_scale, load_shear_scale. ring.
Qed.

Lemma cumsum_from_scale acc' acc v c :
  acc' = acc * c -> cumsum_from acc' (vscale v c) = vscale (cumsum_from acc v) c.
Proof.
  revert acc' acc; induction v as [| a v IH]; intros acc' acc H; [reflexivity |].
  cbn [cumsum_from vscale map]. unfold vscale in IH.
  rewrite (IH (acc' + a * c) (acc + a)) by (rewrite H; ring).
  f_equal. rewrite H. ring.
Qed.

Lemma scaled_cumsum v c d : vscale (cumsum (vscale v c)) d = vscale (vscale (cumsum v) d) c.
Proof.
  unfold cumsum. rewrite (cumsum_from_scale 0 0 v c) by ring.
  unfold vscale. rewrite !map_map. apply map_ext. intros a. ring.
Qed.

Lemma repeat_scale m n c : repeat (c * m) n = vscale (repeat m n) c.
Proof. induction n as [| n IH]; [reflexivity |]. cbn. f_equal; [ring | exact IH]. Qed.

Lemma vadd_scale u v c : vadd (vscale u c) (vscale v c) = vscale (vadd u v) c.
Proof.
  revert v; induction u as [| a u IH]; intros [| b v]; try reflexivity.
  cbn [vscale map vadd]. f_equal; [ring | apply IH].
Qed.

Lemma vsub_scale u v c : vsub (vscale u c) (vscale v c) = vscale (vsub u v) c.
Proof.
  revert v; induction u as [| a u IH]; intros [| b v]; try reflexivity.
  cbn [vscale map vsub]. f_equal; [ring | apply IH].
Qed.

Lemma map_div_scale M k c : map (fun m => m / k) (vscale M c) = vscale (map (fun m => m / k) M) c.
Proof. unfold vscale. rewrite !map_map. apply map_ext. intros a. unfold Qcdiv. ring. Qed.

Lemma analyse_scale c properties supports loads :
  analyse properties supports (map (scale_load c) loads)
  = result_map (scale_stages c) (analyse properties supports loads).
Proof.
  unfold analyse.
  destruct (read_properties properties) as [bp | e]; cbn [bind result_map]; [| reflexivity].
  destruct (make_grid (length bp)) as [g | e]; cbn [bind result_map]; [| reflexivity].
  rewrite reactions_of_scale.
  destruct (reactions_of (length bp) supports loads) as [[r m] | e];
    cbn [bind result_map fst snd]; [| reflexivity].
  rewrite shear_scale. cbn [is_none orb result_map].
  unfold scale_stages. cbn [st_props st_grid st_is_cantilever st_is_ss st_reactions
    st_initial_moment st_V st_M st_slope st_deflection_raw].
  set (V := shear (x g) r loads).
  rewrite (scaled_cumsum V c (dx g)), repeat_scale, vadd_scale.
  set (M := vadd (repeat m (Z.to_nat (num_points g))) (vscale (cumsum V) (dx g))).
  rewrite map_div_scale.
  set (M_over_EI := map (fun m => m / (E bp * I bp)) M).
  rewrite (scaled_cumsum M_over_EI c (dx g)).
  set (slope := vscale (cumsum M_over_EI) (dx g)).
  rewrite (scaled_cumsum slope c (dx g)).
  reflexivity.
Qed.

Lemma apply_boundary_conditions_scale c supports ic iss x d :
  apply_boundary_conditions supports ic iss x (vscale d c)
  = result_map (fun d' => vscale d' c) (apply_boundary_conditions supports ic iss x d).
Proof.
  unfold apply_boundary_conditions. destruct ic; [reflexivity |]. destruct iss; [| reflexivity].
  destruct (next_position "pinned" supports) as [pp |]; [| reflexivity].
  destruct (next_position "roller" supports) as [rp |]; [| reflexivity].
  destruct (argmin (map (fun xi => abs (xi - pp)) x)) as [ip | e];
    cbn [bind result_map]; [| reflexivity].
  destruct (argmin (map (fun xi => abs (xi - rp)) x)) as [ir | e];
    cbn [bind result_map]; [| reflexivity].
  destruct (eq_b (nth ir x 0 - nth ip x 0) 0); [reflexivity |].
  cbn [result_map]. rewrite !nth_vscale, <- vsub_scale. f_equal. f_equal.
  unfold vscale. rewrite map_map. apply map_ext. intros xi. unfold Qcdiv. ring.
Qed.

Lemma dataframe_scale c x V M slope d :
  dataframe x (vscale V c) (vscale M c) (vscale slope c) (vscale d c)
  = map (scale_row c) (dataframe x V M slope d).
Proof.
  unfold dataframe. rewrite map_map. apply map_ext. intros i.
  rewrite !nth_vscale. unfold scale_row. cbn. f_equal; ring.
Qed.

Lemma solve_beam_scale c properties supports loads :
  solve_beam properties supports (map (scale_load c) loads)
  = result_map (map (scale_row c)) (solve_beam properties supports loads).
Proof.
  unfold solve_beam. rewrite analyse_scale.
  destruct (analyse properties supports loads) as [st | e]; cbn [bind result_map]; [| reflexivity].
  unfold scale_stages at 1 2 3 4. cbn [st_is_cantilever st_is_ss st_grid st_deflection_raw].
  rewrite apply_boundary_conditions_scale.
  destruct (apply_boundary_conditions _ _ _ _ _) as [d | e]; cbn [bind result_map]; [| reflexivity].
  unfold scale_stages. cbn [st_grid st_V st_M st_slope]. rewrite dataframe_scale. reflexivity.
Qed.

(* ------------------------------------------------------------------------- *)
(** ** The order of the loads *)

Lemma fold_plus_perm {A} (f : A -> Qc) l l' :
  Permutation l l' ->
  fold_right (fun a acc => f a + acc) 0 l = fold_right (fun a acc => f a + acc) 0 l'.
Proof.
  induction 1; cbn [fold_right]; [reflexivity | rewrite IHPermutation; reflexivity | ring | congruence].
Qed.

Lemma load_totals_perm pivot l l' : Permutation l l' -> load_totals pivot l = load_totals pivot l'.
Proof.
  intros H. rewrite !load_totals_eq. unfold F_total, M_about.
  f_equal; apply fold_plus_perm; exact H.
Qed.

Lemma reactions_of_perm len supports l l' :
  Permutation l l' -> reactions_of len supports l = reactions_of len supports l'.
Proof.
  intros H. unfold reactions_of. destruct (is_ss supports).
  - unfold calculate_reactions_simply_supported. cbv zeta.
    rewrite (load_totals_perm _ _ _ H). reflexivity.
  - destruct (is_cantilever supports); [| reflexivity].
    destruct supports as [| s0 t]; [reflexivity |].
    cbn [calculate_reactions_cantilever]. rewrite (load_totals_perm _ _ _ H). reflexivity.
Qed.

Lemma shear_perm x reactions l l' :
  Permutation l l' -> shear x reactions l = shear x reactions l'.
Proof.
  intros H. apply (nth_ext _ _ 0 0).
  - rewrite !shear_length. reflexivity.
  - intros i Hi. rewrite shear_length in Hi. rewrite !shear_nth by exact Hi.
    f_equal. apply fold_plus_perm. exact H.
Qed.

Lemma analyse_perm properties supports l l' :
  Permutation l l' -> analyse properties supports l = analyse properties supports l'.
Proof.
  intros H. unfold analyse.
  destruct (read_properties properties) as [bp | e]; cbn [bind]; [| reflexivity].
  destruct (make_grid (length bp)) as [g | e]; cbn [bind]; [| reflexivity].
  rewrite (reactions_of_perm _ _ _ _ H).
  destruct (reactions_of (length bp) supports l') as [[r m] | e]; cbn [bind]; [| reflexivity].
  rewrite (shear_perm _ r _ _ H). reflexivity.
Qed.

(** Claim C9 (counterexample). On a simply supported beam of length 0.02
    with two point loads of -10 N at 0.005 and 0.015, doubling the first
    load alone changes the shear at position 0 (the pin reaction) from 10 N
    to 17.5 N, not to 20 N. *)
Lemma single_load_doubling_counterexample :
  match solve_beam (beam (qc (1 # 50))) [pinned 0; roller (qc (1 # 50))]
          [Point (qc (-10)) (qc (1 # 200)); Point (qc (-10)) (qc (3 # 200))],
        solve_beam (beam (qc (1 # 50))) [pinned 0; roller (qc (1 # 50))]
          [Point (qc (-20)) (qc (1 # 200)); Point (qc (-10)) (qc (3 # 200))]
  with
  | Ok rows, Ok rows2 =>
      nth 0 (map Shear_Force_N rows) 0 = qc 10
      /\ nth 0 (map Shear_Force_N rows2) 0 = qc (35 # 2)
      /\ nth 0 (map Shear_Force_N rows2) 0 <> qc 2 * nth 0 (map Shear_Force_N rows) 0
  | _, _ => False
  end.
Proof.
  vm_compute. split; [reflexivity |]. split; [reflexivity |]. intros H. discriminate H.
Qed.

(** Claim C9 (amended). Multiplying the magnitude of every load by the same
    factor [c] (for instance doubling the only load of a configuration)
    multiplies every shear, moment, slope and deflection value of the
    returned table by [c] and leaves the positions and any error unchanged;
    reordering the load list leaves the result unchanged. *)
Theorem load_scaling_and_order properties supports loads loads' c :
  solve_beam properties supports (map (scale_load c) loads)
  = match solve_beam properties supports loads with
    | Ok rows => Ok (map (scale_row c) rows)
    | Err e => Err e
    end
  /\ (Permutation loads loads' ->
      solve_beam properties supports loads' = solve_beam properties supports loads).
Proof.
  split.
  - exact (solve_beam_scale c properties supports loads).
  - intros H. unfold solve_beam. rewrite (analyse_perm _ _ _ _ H). reflexivity.
Qed.

Lemma load_scaling_and_order_witness :
  Permutation [Point (qc (-10)) (qc (1 # 200)); Distributed (qc (-5)) 0 (qc (1 # 100))]
              [Distributed (qc (-5)) 0 (qc (1 # 100)); Point (qc (-10)) (qc (1 # 200))]
  /\ solve_beam (beam (qc (1 # 50))) [pinned 0; roller (qc (1 # 50))]
       [Distributed (qc (-5)) 0 (qc (1 # 100)); Point (qc (-10)) (qc (1 # 200))]
     = solve_beam (beam (qc (1 # 50))) [pinned 0; roller (qc (1 # 50))]
       [Point (qc (-10)) (qc (1 # 200)); Distributed (qc (-5)) 0 (qc (1 # 100))].
Proof.
  split; [apply perm_swap |].
  apply (proj2 (load_scaling_and_order (beam (qc (1 # 50))) [pinned 0; roller (qc (1 # 50))]
    [Point (qc (-10)) (qc (1 # 200)); Distributed (qc (-5)) 0 (qc (1 # 100))]
    [Distributed (qc (-5)) 0 (qc (1 # 100)); Point (qc (-10)) (qc (1 # 200))] (qc 2))).
  apply perm_swap.
Defined.

(* ------------------------------------------------------------------------- *)
(** ** Further properties of [solve_beam] *)

Lemma solve_beam_error_of properties supports loads :
  error_of (solve_beam properties supports loads)
  = match analyse properties supports loads with
    | Ok st => error_of (apply_boundary_conditions supports (st_is_cantilever st) (st_is_ss st)
                           (x (st_grid st)) (st_deflection_raw st))
    | Err e => Some e
    end.
Proof.
  unfold solve_beam. destruct (analyse properties supports loads) as [st | e]; [| reflexivity].
  cbn [bind]. destruct (apply_boundary_conditions _ _ _ _ _); reflexivity.
Qed.

Lemma reactions_of_error_loads len supports l1 l2 :
  error_of (reactions_of len supports l1) = error_of (reactions_of len supports l2).
Proof.
  unfold reactions_of. destruct (is_ss supports).
  - unfold calculate_reactions_simply_supported, py_div. cbv zeta. rewrite !load_totals_eq.
    destruct (eq_b _ 0); reflexivity.
  - destruct (is_cantilever supports).
    + destruct supports as [| s0 t]; [reflexivity |].
      cbn [calculate_reactions_cantilever]. rewrite !load_totals_eq. reflexivity.
    + destruct (_ && _); reflexivity.
Qed.

Lemma analyse_error_loads properties supports l1 l2 :
  error_of (analyse properties supports l1) = error_of (analyse properties supports l2).
Proof.
  unfold analyse.
  destruct (read_properties properties) as [bp | e]; cbn [bind]; [| reflexivity].
  destruct (make_grid (length bp)) as [g | e]; cbn [bind]; [| reflexivity].
  pose proof (reactions_of_error_loads (length bp) supports l1 l2) as He.
  destruct (reactions_of (length bp) supports l1) as [[r1 m1] | e1],
    (reactions_of (length bp) supports l2) as [[r2 m2] | e2];
    cbn [error_of] in He; try discriminate; cbn [bind]; [reflexivity |].
  injection He as ->. reflexivity.
Qed.

Lemma analyse_same_grid properties supports l1 l2 st1 st2 :
  analyse properties supports l1 = Ok st1 -> analyse properties supports l2 = Ok st2 ->
  st_grid st1 = st_grid st2 /\ st_is_cantilever st1 = st_is_cantilever st2
  /\ st_is_ss st1 = st_is_ss st2.
Proof.
  intros H1 H2.
  destruct (analyse_ok _ _ _ _ H1) as (bp1 & g1 & r1 & m1 & Hp1 & Hg1 & _ & _ & Hgg1 & Hc1 & Hs1 & _).
  destruct (analyse_ok _ _ _ _ H2) as (bp2 & g2 & r2 & m2 & Hp2 & Hg2 & _ & _ & Hgg2 & Hc2 & Hs2 & _).
  rewrite Hp1 in Hp2. injection Hp2 as <-. rewrite Hg1 in Hg2. injection Hg2 as <-.
  repeat split; congruence.
Qed.

(** [solve_beam]: which error is raised, if any, does not depend on the
    loads; the loads only change the values of a returned table. *)
Theorem solve_beam_error_independent_of_loads properties supports l1 l2 :
  error_of (solve_beam properties supports l1) = error_of (solve_beam properties supports l2).
Proof.
  rewrite !solve_beam_error_of.
  pose proof (analyse_error_loads properties supports l1 l2) as He.
  destruct (analyse properties supports l1) as [st1 | e1] eqn:H1,
    (analyse properties supports l2) as [st2 | e2] eqn:H2; cbn [error_of] in He;
    try discriminate; [| exact He].
  destruct (analyse_same_grid _ _ _ _ _ _ H1 H2) as (Hg & Hc & Hs).
  rewrite Hg, Hc, Hs. apply apply_boundary_conditions_error.
Qed.

(** [solve_beam]: without loads, every shear, moment, slope and deflection
    value of a returned table is zero. *)
Theorem unloaded_beam_zero_table properties supports rows bp :
  read_properties properties = Ok bp -> E bp * I bp <> 0 ->
  solve_beam properties supports [] = Ok rows ->
  forall r, In r rows ->
    Shear_Force_N r = 0 /\ Bending_Moment_Nm r = 0 /\ Slope_rad r = 0 /\ Deflection_m r = 0.
Proof.
  intros _ _ H r Hr. pose proof (solve_beam_scale 0 properties supports []) as Hs.
  cbn [map] in Hs. rewrite H in Hs. cbn [result_map] in Hs. injection Hs as Hs.
  rewrite Hs in Hr. apply in_map_iff in Hr as (r0 & <- & _).
  unfold scale_row. cbn. repeat split; ring.
Qed.

Lemma unloaded_beam_zero_table_witness :
  read_properties (beam (qc (1 # 50)))
    = Ok {| length := qc (1 # 50); E := qc 200000000000; I := qc (83 # 1000000) |}
  /\ qc 200000000000 * qc (83 # 1000000) <> 0
  /\ exists rows, solve_beam (beam (qc (1 # 50))) [pinned 0; roller (qc (1 # 50))] [] = Ok rows
  /\ forall r, In r rows ->
       Shear_Force_N r = 0 /\ Bending_Moment_Nm r = 0 /\ Slope_rad r = 0 /\ Deflection_m r = 0.
Proof.
  assert (HEI : qc 200000000000 * qc (83 # 1000000) <> 0) by qc_neq_tac.
  split; [reflexivity |]. split; [exact HEI |].
  destruct (solve_beam (beam (qc (1 # 50))) [pinned 0; roller (qc (1 # 50))] []) as [rows | e] eqn:H;
    [| vm_compute in H; discriminate].
  exists rows. split; [reflexivity |].
  exact (unloaded_beam_zero_table (beam (qc (1 # 50))) _ _
           {| length := qc (1 # 50); E := qc 200000000000; I := qc (83 # 1000000) |}
           eq_refl HEI H).
Defined.

Lemma reactions_of_congr len supports l l' :
  (forall pivot, load_totals pivot l = load_totals pivot l') ->
  reactions_of len supports l = reactions_of len supports l'.
Proof.
  intros H. unfold reactions_of. destruct (is_ss supports).
  - unfold calculate_reactions_simply_supported. cbv zeta. rewrite H. reflexivity.
  - destruct (is_cantilever supports); [| reflexivity].
    destruct supports as [| s0 t]; [reflexivity |].
    cbn [calculate_reactions_cantilever]. rewrite H. reflexivity.
Qed.

Lemma shear_congr x reactions l l' :
  (forall xi, load_sum xi l = load_sum xi l') -> shear x reactions l = shear x reactions l'.
Proof.
  intros H. apply (nth_ext _ _ 0 0).
  - rewrite !shear_length. reflexivity.
  - intros i Hi. rewrite shear_length in Hi. rewrite !shear_nth by exact Hi.
    f_equal. apply H.
Qed.

Lemma solve_beam_loads_congr properties supports l l' :
  (forall pivot, load_totals pivot l = load_totals pivot l') ->
  (forall xi, load_sum xi l = load_sum xi l') ->
  solve_beam properties supports l = solve_beam properties supports l'.
Proof.
  intros Ht Hs. unfold solve_beam, analyse.
  destruct (read_properties properties) as [bp | e]; cbn [bind]; [| reflexivity].
  destruct (make_grid (length bp)) as [g | e]; cbn [bind]; [| reflexivity].
  rewrite (reactions_of_congr _ _ _ _ Ht).
  destruct (reactions_of (length bp) supports l') as [[r m] | e]; cbn [bind]; [| reflexivity].
  rewrite (shear_congr _ r _ _ Hs). reflexivity.
Qed.

Lemma fold_plus_null {A} (f : A -> Qc) l1 a l2 :
  f a = 0 ->
  fold_right (fun a acc => f a + acc) 0 (l1 ++ a :: l2)
  = fold_right (fun a acc => f a + acc) 0 (l1 ++ l2).
Proof. intros H. rewrite !fold_right_app. cbn [fold_right]. rewrite H, Qcplus_0_l. reflexivity. Qed.

(** [solve_beam]: a load that carries nothing - a point load of magnitude 0,
    a distributed load of magnitude 0, or a distributed load whose start
    equals its end - can be removed from the load list without changing the
    result (table or error). *)
Theorem solve_beam_null_load properties supports l1 l0 l2 :
  (exists pos, l0 = Point 0 pos)
  \/ (exists a b, l0 = Distributed 0 a b)
  \/ (exists m a, l0 = Distributed m a a) ->
  solve_beam properties supports (l1 ++ l0 :: l2) = solve_beam properties supports (l1 ++ l2).
Proof.
  intros H0.
  assert (Hf : resultant_force l0 = 0).
  { destruct H0 as [(pos & ->) | [(a & b & ->) | (m & a & ->)]]; cbn; ring. }
  apply solve_beam_loads_congr.
  - intros pivot. rewrite !load_totals_eq. unfold F_total, M_about. f_equal.
    + apply (fold_plus_null resultant_force). exact Hf.
    + apply (fold_plus_null (fun l => resultant_force l * (resultant_position l - pivot))).
      rewrite Hf. ring.
  - intros xi. unfold load_sum. apply (fold_plus_null (spec_load_shear xi)).
    destruct H0 as [(pos & ->) | [(a & b & ->) | (m & a & ->)]]; cbn [spec_load_shear].
    + destruct (ge_b xi pos); reflexivity.
    + destruct (ge_b xi a && lt_b xi b), (ge_b xi b); ring.
    + unfold ge_b, lt_b. destruct (Qle_bool a xi); cbn [andb negb]; ring.
Qed.

Lemma solve_beam_null_load_witness :
  solve_beam (beam (qc (1 # 50))) [pinned 0; roller (qc (1 # 50))]
    ([Point (qc (-10)) (qc (1 # 100))] ++ Distributed (qc (-5)) (qc (1 # 200)) (qc (1 # 200)) :: [])
  = solve_beam (beam (qc (1 # 50))) [pinned 0; roller (qc (1 # 50))]
    ([Point (qc (-10)) (qc (1 # 100))] ++ []).
Proof.
  apply solve_beam_null_load. right; right. exists (qc (-5)), (qc (1 # 200)). reflexivity.
Defined.

Lemma ge_b_of_le a b : a <= b -> ge_b b a = true.
Proof. intros H. unfold ge_b. apply Qle_bool_iff. exact H. Qed.

Lemma load_sum_beyond xi loads :
  (forall ld, In ld loads -> load_end ld <= xi) -> load_sum xi loads = F_total loads.
Proof.
  induction loads as [| l t IH]; intros H; [reflexivity |].
  unfold load_sum, F_total in *. cbn [fold_right].
  rewrite IH by (intros ld Hld; apply H; right; exact Hld).
  assert (He := ge_b_of_le _ _ (H l (or_introl eq_refl))).
  destruct l as [m p | m a b]; cbn [spec_load_shear resultant_force load_end] in *.
  - rewrite He. reflexivity.
  - rewrite He. unfold lt_b. unfold ge_b in He. rewrite He. cbn [negb]. rewrite andb_false_r. ring.
Qed.

Lemma in_dataframe r x V M slope d :
  In r (dataframe x V M slope d) ->
  exists i, (i < List.length x)%nat /\ r = {| Position_m := nth i x 0; Shear_Force_N := nth i V 0;
    Bending_Moment_Nm := nth i M 0; Slope_rad := nth i slope 0; Deflection_m := nth i d 0 |}.
Proof.
  unfold dataframe. intros H. apply in_map_iff in H as (i & <- & Hi).
  apply in_seq in Hi. exists i. split; [lia | reflexivity].
Qed.

Lemma reaction_sum_beyond len supports loads reactions im xi :
  reactions_of len supports loads = Ok (reactions, im) ->
  (forall sp, In sp supports -> s_position sp <= xi) ->
  reaction_sum xi reactions = - F_total loads.
Proof.
  intros Hr Hs. destruct (is_ss supports) eqn:Hss.
  - destruct (is_ss_shape _ Hss) as (p & r & Hsh).
    assert (Hp : In (pinned p) supports) by (destruct Hsh as [-> | ->]; simpl; auto).
    assert (Hq : In (roller r) supports) by (destruct Hsh as [-> | ->]; simpl; auto).
    destruct (pinned_roller_positions _ _ _ Hss Hp Hq) as [Hnp Hnr].
    assert (Hpx := ge_b_of_le _ _ (Hs _ Hp)). assert (Hrx := ge_b_of_le _ _ (Hs _ Hq)).
    cbn [s_position pinned roller] in Hpx, Hrx.
    unfold reactions_of in Hr. rewrite Hss in Hr.
    unfold calculate_reactions_simply_supported, next_position_or in Hr. rewrite Hnp, Hnr in Hr.
    rewrite load_totals_eq in Hr. unfold py_div in Hr.
    destruct (eq_b (r - p) 0) eqn:Hz; [discriminate |].
    cbn [bind] in Hr. injection Hr as <- _.
    assert (Hne : eq_b r p = false).
    { apply eq_b_false. intros ->. apply eq_b_false in Hz. apply Hz. ring. }
    unfold dict_of. cbn [fold_left fst snd dict_set]. rewrite Hne.
    unfold reaction_sum, spec_reaction_shear. cbn [fold_right fst snd]. rewrite Hpx, Hrx. ring.
  - destruct (is_cantilever supports) eqn:Hc.
    + destruct (reactions_of_cantilever _ _ _ _ _ Hc Hr) as (s0 & -> & -> & _).
      unfold reaction_sum, spec_reaction_shear. cbn [fold_right fst snd].
      rewrite (ge_b_of_le _ _ (Hs s0 (or_introl eq_refl))). ring.
    + unfold reactions_of in Hr. rewrite Hss, Hc in Hr. destruct (_ && _); discriminate.
Qed.

(** [solve_beam]: the shear closes - at every sample at or beyond every
    support and beyond every point-load position and distributed-load end,
    the shear of a returned table is zero, for both beam types. *)
Theorem shear_vanishes_beyond_supports_and_loads properties supports loads rows r :
  solve_beam properties supports loads = Ok rows -> In r rows ->
  (forall sp, In sp supports -> s_position sp <= Position_m r) ->
  (forall ld, In ld loads -> load_end ld <= Position_m r) ->
  Shear_Force_N r = 0.
Proof.
  intros H Hin Hs Hl.
  destruct (solve_beam_ok _ _ _ _ H) as (st & d & Ha & _ & Hrows).
  destruct (analyse_ok _ _ _ _ Ha) as (bp & g & reactions & im & _ & _ & Hr & _ & Hgg & _ & _ & _ & _ & HV & _).
  rewrite Hrows in Hin. apply in_dataframe in Hin as (i & Hi & ->).
  cbn [Position_m Shear_Force_N] in *. rewrite HV. rewrite Hgg in Hi, Hs, Hl.
  rewrite shear_nth by exact Hi.
  change (reaction_sum (nth i (x g) 0) reactions + load_sum (nth i (x g) 0) loads = 0).
  rewrite (reaction_sum_beyond _ _ _ _ _ _ Hr Hs), (load_sum_beyond _ _ Hl). ring.
Qed.

Lemma shear_vanishes_beyond_supports_and_loads_witness :
  exists rows, solve_beam (beam (qc (1 # 50))) [pinned 0; roller (qc (1 # 100))]
                 [Point (qc (-10)) (qc (1 # 200)); Distributed (qc (-5)) 0 (qc (3 # 200))] = Ok rows
  /\ forall r, In r rows -> qc (3 # 200) <= Position_m r -> Shear_Force_N r = 0.
Proof.
  destruct (solve_beam (beam (qc (1 # 50))) [pinned 0; roller (qc (1 # 100))]
    [Point (qc (-10)) (qc (1 # 200)); Distributed (qc (-5)) 0 (qc (3 # 200))]) as [rows | e] eqn:H;
    [| vm_compute in H; discriminate].
  exists rows. split; [reflexivity |]. intros r Hr Hp.
  apply (shear_vanishes_beyond_supports_and_loads _ _ _ _ _ H Hr).
  - intros sp Hsp. simpl in Hsp.
    destruct Hsp as [<- | [<- | []]]; cbn [s_position pinned roller];
      eapply Qcle_trans; [| exact Hp | | exact Hp]; vm_compute; discriminate.
  - intros ld Hld. simpl in Hld.
    destruct Hld as [<- | [<- | []]]; cbn [load_end];
      [eapply Qcle_trans; [| exact Hp]; vm_compute; discriminate | exact Hp].
Defined.

Lemma dataframe_deflection x V M slope d :
  List.length d = List.length x -> map Deflection_m (dataframe x V M slope d) = d.
Proof.
  intros Hl. apply (nth_ext _ _ 0 0).
  - rewrite length_map, dataframe_length. symmetry. exact Hl.
  - intros i Hi. rewrite length_map, dataframe_length in Hi.
    exact (proj2 (proj2 (proj2 (proj2 (dataframe_columns x V M slope d i Hi))))).
Qed.

(** [solve_beam] on a cantilever with its fixed support at any position [q]
    (position 0 is only assumed, with a warning otherwise): the reaction is
    the single force [-F_total] at [q], the initial moment is the reaction
    moment [-M_about q], and the deflection column is the uncorrected double
    integral from position 0, no boundary condition being applied. *)
Theorem cantilever_results properties q loads rows :
  solve_beam properties [fixed q] loads = Ok rows ->
  exists st, analyse properties [fixed q] loads = Ok st
    /\ st_reactions st = [(q, - F_total loads)]
    /\ st_initial_moment st = - M_about q loads
    /\ map Deflection_m rows = st_deflection_raw st.
Proof.
  intros H. destruct (solve_beam_ok _ _ _ _ H) as (st & d & Ha & Hbc & Hrows).
  destruct (analyse_ok _ _ _ _ Ha)
    as (bp & g & reactions & im & _ & _ & Hr & _ & _ & Hc & _ & Hrs & Him & _).
  destruct (reactions_of_cantilever (length bp) [fixed q] _ _ _ eq_refl Hr) as (s0 & Hs0 & -> & ->).
  injection Hs0 as <-. exists st. split; [exact Ha |]. split; [exact Hrs |]. split; [exact Him |].
  rewrite Hc in Hbc. cbn in Hbc. injection Hbc as <-. rewrite Hrows.
  apply dataframe_deflection. apply (analyse_lengths _ _ _ _ Ha).
Qed.

Lemma cantilever_results_witness :
  exists rows, solve_beam (beam (qc (1 # 50))) [fixed (qc (1 # 100))] [Point (qc (-10)) (qc (1 # 50))] = Ok rows
  /\ exists st, analyse (beam (qc (1 # 50))) [fixed (qc (1 # 100))] [Point (qc (-10)) (qc (1 # 50))] = Ok st
    /\ st_reactions st = [(qc (1 # 100), - F_total [Point (qc (-10)) (qc (1 # 50))])]
    /\ st_initial_moment st = - M_about (qc (1 # 100)) [Point (qc (-10)) (qc (1 # 50))]
    /\ map Deflection_m rows = st_deflection_raw st.
Proof.
  destruct (solve_beam (beam (qc (1 # 50))) [fixed (qc (1 # 100))] [Point (qc (-10)) (qc (1 # 50))])
    as [rows | e] eqn:H; [| vm_compute in H; discriminate].
  exists rows. split; [reflexivity |]. exact (cantilever_results _ _ _ _ H).
Defined.

(* ------------------------------------------------------------------------- *)
(** ** Short and negative lengths *)

Lemma Qle_bool_0_comp x y : (x == y)%Q -> Qle_bool 0 x = Qle_bool 0 y.
Proof.
  intros H. destruct (Qle_bool 0 y) eqn:E.
  - apply Qle_bool_iff. rewrite H. apply Qle_bool_iff. exact E.
  - apply not_true_iff_false. intros E'. apply Qle_bool_iff in E'. rewrite H in E'.
    apply Qle_bool_iff in E'. congruence.
Qed.

(** [int(length * 200)] in terms of the numerator and denominator of the length. *)
Lemma py_int_200 (len : Qc) :
  py_int (len * qc 200)
  = (if (0 <=? Qnum len)%Z then (Qnum len * 200) / Zpos (Qden len)
     else - ((- (Qnum len * 200)) / Zpos (Qden len)))%Z.
Proof.
  assert (H : (this (len * qc 200) == (Qnum len * 200) # Qden len)%Q).
  { unfold Qcmult, qc. cbn [this Q2Qc]. rewrite !Qred_correct.
    destruct (this len) as [n d]. unfold Qeq, Qmult. simpl. lia. }
  unfold py_int.
  rewrite (Qle_bool_0_comp _ _ H), (Qfloor_comp _ _ H), (Qfloor_comp _ _ (Qopp_comp _ _ H)).
  unfold Qle_bool. simpl. destruct (Qnum len) as [| n | n]; reflexivity.
Qed.

Lemma py_int_short (len : Qc) :
  qc (-1 # 200) < len -> len < qc (1 # 200) -> py_int (len * qc 200) = 0%Z.
Proof.
  rewrite py_int_200. destruct len as [[n d] Hc]. unfold Qclt, Qlt. simpl. intros H1 H2.
  destruct (0 <=? n)%Z eqn:E; [apply Z.leb_le in E | apply Z.leb_gt in E].
  - apply Z.div_small. lia.
  - rewrite Z.div_small; lia.
Qed.

Lemma py_int_negative (len : Qc) :
  len <= qc (-1 # 100) -> (py_int (len * qc 200) <= -2)%Z.
Proof.
  rewrite py_int_200. destruct len as [[n d] Hc]. unfold Qcle, Qle. simpl. intros H1.
  destruct (0 <=? n)%Z eqn:E; [apply Z.leb_le in E; lia | apply Z.leb_gt in E].
  enough (2 <= - (n * 200) / Z.pos d)%Z by lia.
  apply Z.div_le_lower_bound; lia.
Qed.

Lemma py_int_minus_one (len : Qc) :
  qc (-1 # 100) < len -> len <= qc (-1 # 200) -> py_int (len * qc 200) = (-1)%Z.
Proof.
  rewrite py_int_200. destruct len as [[n d] Hc]. unfold Qclt, Qcle, Qlt, Qle. simpl. intros H1 H2.
  destruct (0 <=? n)%Z eqn:E; [apply Z.leb_le in E; lia | apply Z.leb_gt in E].
  enough (- (n * 200) / Z.pos d = 1)%Z by lia.
  enough (1 <= - (n * 200) / Z.pos d < 2)%Z by lia.
  split; [apply Z.div_le_lower_bound | apply Z.div_lt_upper_bound]; lia.
Qed.

(** [solve_beam]: a length with [|length| < 0.005] gives [int(length * 200)
    = 0], a single sample, and [dx = length / 0]: the solver raises
    [ZeroDivisionError] whatever the supports and loads (length 0 included). *)
Theorem short_beam_zero_division properties supports loads bp :
  read_properties properties = Ok bp ->
  qc (-1 # 200) < length bp -> length bp < qc (1 # 200) ->
  solve_beam properties supports loads = Err ZeroDivisionError.
Proof.
  intros H H1 H2. unfold solve_beam, analyse. rewrite H. cbn [bind].
  unfold make_grid. rewrite (py_int_short _ H1 H2). reflexivity.
Qed.

Lemma short_beam_zero_division_witness :
  read_properties (beam 0) = Ok {| length := 0; E := qc 200000000000; I := qc (83 # 1000000) |}
  /\ solve_beam (beam 0) [pinned 0; roller 0] [] = Err ZeroDivisionError.
Proof.
  split; [reflexivity |].
  apply (short_beam_zero_division _ _ _ {| length := 0; E := qc 200000000000; I := qc (83 # 1000000) |});
    [reflexivity | vm_compute; reflexivity | vm_compute; reflexivity].
Defined.

(** [solve_beam]: a length of at most -0.01 gives a negative number of
    samples, and [np.linspace] raises [ValueError], whatever the supports and
    loads. *)
Theorem negative_length_value_error properties supports loads bp :
  read_properties properties = Ok bp -> length bp <= qc (-1 # 100) ->
  solve_beam properties supports loads = Err ValueError.
Proof.
  intros H H1. unfold solve_beam, analyse. rewrite H. cbn [bind].
  unfold make_grid, linspace.
  replace (py_int (length bp * qc 200) + 1 <? 0)%Z with true
    by (symmetry; apply Z.ltb_lt; pose proof (py_int_negative _ H1); lia).
  reflexivity.
Qed.

Lemma negative_length_value_error_witness :
  read_properties (beam (qc (-1))) = Ok {| length := qc (-1); E := qc 200000000000; I := qc (83 # 1000000) |}
  /\ solve_beam (beam (qc (-1))) [fixed 0] [] = Err ValueError.
Proof.
  split; [reflexivity |].
  apply (negative_length_value_error _ _ _ {| length := qc (-1); E := qc 200000000000; I := qc (83 # 1000000) |});
    [reflexivity | vm_compute; discriminate].
Defined.

(** [solve_beam]: a length in [(-0.01, -0.005]] gives zero samples: a
    cantilever returns an empty table, and a simply supported beam (its two
    supports in either order) with distinct support positions raises
    [ValueError] ([np.argmin] of an empty array). *)
Theorem tiny_negative_length properties loads bp q supports a b :
  read_properties properties = Ok bp ->
  qc (-1 # 100) < length bp -> length bp <= qc (-1 # 200) ->
  solve_beam properties [fixed q] loads = Ok []
  /\ (is_ss supports = true -> In (pinned a) supports -> In (roller b) supports -> a <> b ->
      solve_beam properties supports loads = Err ValueError).
Proof.
  intros H H1 H2.
  assert (Hg : make_grid (length bp)
               = Ok {| num_points := 0; x := []; dx := length bp / qc_of_Z (-1) |}).
  { unfold make_grid. rewrite (py_int_minus_one _ H1 H2). reflexivity. }
  split.
  - assert (Hr : reactions_of (length bp) [fixed q] loads
                 = Ok ([(q, - F_total loads)], - M_about q loads)).
    { unfold reactions_of, calculate_reactions_cantilever.
      replace (is_ss [fixed q]) with false by reflexivity.
      replace (is_cantilever [fixed q]) with true by reflexivity.
      cbv beta iota. rewrite load_totals_eq. reflexivity. }
    unfold solve_beam, analyse. rewrite H. cbn [bind]. rewrite Hg. cbn [bind].
    rewrite Hr. reflexivity.
  - intros Hss Hpa Hrb Hab.
    destruct (pinned_roller_positions _ _ _ Hss Hpa Hrb) as [Hnp Hnr].
    assert (Hr : exists rm, reactions_of (length bp) supports loads = Ok rm).
    { unfold reactions_of, calculate_reactions_simply_supported, py_div. cbv zeta.
      rewrite Hss. unfold next_position_or. rewrite Hnp, Hnr.
      rewrite load_totals_eq.
      replace (eq_b (b - a) 0) with false
        by (symmetry; apply eq_b_false; intros Hz; apply Hab; symmetry; apply Qc_sub_eq0; exact Hz).
      eexists. reflexivity. }
    destruct Hr as [[r m] Hr].
    unfold solve_beam, analyse. rewrite H. cbn [bind]. rewrite Hg. cbn [bind].
    rewrite Hr. cbn [bind is_none orb st_is_cantilever st_is_ss st_grid x st_deflection_raw].
    rewrite (is_ss_not_cantilever _ Hss), Hss.
    unfold apply_boundary_conditions. rewrite Hnp, Hnr. reflexivity.
Qed.

Lemma tiny_negative_length_witness :
  read_properties (beam (qc (-3 # 500))) = Ok {| length := qc (-3 # 500); E := qc 200000000000; I := qc (83 # 1000000) |}
  /\ solve_beam (beam (qc (-3 # 500))) [fixed 0] [Point (qc (-10)) 0] = Ok []
  /\ solve_beam (beam (qc (-3 # 500))) [roller (qc 1); pinned 0] [Point (qc (-10)) 0] = Err ValueError.
Proof.
  assert (Hp : read_properties (beam (qc (-3 # 500)))
               = Ok {| length := qc (-3 # 500); E := qc 200000000000; I := qc (83 # 1000000) |})
    by reflexivity.
  assert (H1 : qc (-1 # 100) < length {| length := qc (-3 # 500); E := qc 200000000000; I := qc (83 # 1000000) |})
    by (vm_compute; reflexivity).
  assert (H2 : length {| length := qc (-3 # 500); E := qc 200000000000; I := qc (83 # 1000000) |} <= qc (-1 # 200))
    by (vm_compute; discriminate).
  destruct (tiny_negative_length _ [Point (qc (-10)) 0] _ 0 [roller (qc 1); pinned 0] 0 (qc 1) Hp H1 H2)
    as [Hc Hs].
  split; [exact Hp |]. split; [exact Hc |]. apply Hs.
  - reflexivity.
  - right; left; reflexivity.
  - left; reflexivity.
  - intros E. apply (f_equal (fun q : Qc => this q)) in E. vm_compute in E. discriminate.
Defined.

(* ------------------------------------------------------------------------- *)
(** ** Superposition of load lists *)

Lemma fold_plus_app {A} (f : A -> Qc) l1 l2 :
  fold_right (fun a acc => f a + acc) 0 (l1 ++ l2)
  = fold_right (fun a acc => f a + acc) 0 l1 + fold_right (fun a acc => f a + acc) 0 l2.
Proof. induction l1 as [| a l1 IH]; cbn [app fold_right]; [ring | rewrite IH; ring]. Qed.

Lemma F_total_app l1 l2 : F_total (l1 ++ l2) = F_total l1 + F_total l2.
Proof. apply (fold_plus_app resultant_force). Qed.

Lemma M_about_app q l1 l2 : M_about q (l1 ++ l2) = M_about q l1 + M_about q l2.
Proof. apply (fold_plus_app (fun l => resultant_force l * (resultant_position l - q))). Qed.

Lemma load_sum_app xi l1 l2 : load_sum xi (l1 ++ l2) = load_sum xi l1 + load_sum xi l2.
Proof. apply (fold_plus_app (spec_load_shear xi)). Qed.

Lemma vadd_nth_eq i u v :
  List.length u = List.length v -> nth i (vadd u v) 0 = nth i u 0 + nth i v 0.
Proof.
  intros Hl. destruct (Nat.lt_ge_cases i (List.length u)) as [Hi | Hi].
  - apply vadd_nth; lia.
  - rewrite !nth_overflow; [ring | lia | lia | rewrite vadd_length; lia].
Qed.

Lemma cumsum_from_vadd a b u v :
  List.length u = List.length v ->
  cumsum_from (a + b) (vadd u v) = vadd (cumsum_from a u) (cumsum_from b v).
Proof.
  revert a b v; induction u as [| x u IH]; intros a b [| y v] Hl; try discriminate; [reflexivity |].
  cbn [vadd cumsum_from]. injection Hl as Hl.
  replace (a + b + (x + y)) with ((a + x) + (b + y)) by ring.
  rewrite IH by exact Hl. reflexivity.
Qed.

Lemma cumsum_vadd u v :
  List.length u = List.length v -> cumsum (vadd u v) = vadd (cumsum u) (cumsum v).
Proof.
  intros Hl. unfold cumsum. rewrite <- (cumsum_from_vadd 0 0 u v Hl).
  replace (0 + 0) with 0 by ring. reflexivity.
Qed.

Lemma vscale_vadd u v c : vscale (vadd u v) c = vadd (vscale u c) (vscale v c).
Proof.
  revert v; induction u as [| a u IH]; intros [| b v]; try reflexivity.
  cbn [vadd vscale map]. f_equal; [ring | apply IH].
Qed.

Lemma repeat_add a b n : repeat (a + b) n = vadd (repeat a n) (repeat b n).
Proof. induction n as [| n IH]; [reflexivity |]. cbn. rewrite IH. reflexivity. Qed.

Lemma vadd_swap4 a b c d : vadd (vadd a b) (vadd c d) = vadd (vadd a c) (vadd b d).
Proof.
  revert b c d; induction a as [| x a IH]; intros [| y b] [| z c] [| w d]; try reflexivity.
  cbn [vadd]. f_equal; [ring | apply IH].
Qed.

Lemma vsub_vadd4 a b c d : vsub (vadd a b) (vadd c d) = vadd (vsub a c) (vsub b d).
Proof.
  revert b c d; induction a as [| x a IH]; intros [| y b] [| z c] [| w d]; try reflexivity.
  cbn [vadd vsub]. f_equal; [ring | apply IH].
Qed.

Lemma map_div_vadd u v k :
  map (fun m => m / k) (vadd u v) = vadd (map (fun m => m / k) u) (map (fun m => m / k) v).
Proof.
  revert v; induction u as [| a u IH]; intros [| b v]; try reflexivity.
  cbn [vadd map]. f_equal; [unfold Qcdiv; ring | apply IH].
Qed.

Lemma map_plus {A} (f g : A -> Qc) l : map (fun a => f a + g a) l = vadd (map f l) (map g l).
Proof. induction l as [| a l IH]; [reflexivity |]. cbn. rewrite IH. reflexivity. Qed.

Lemma combine_map_same {A B C} (f : A -> B) (g : A -> C) l :
  combine (map f l) (map g l) = map (fun a => (f a, g a)) l.
Proof. induction l as [| a l IH]; [reflexivity |]. cbn. rewrite IH. reflexivity. Qed.

Lemma dict_of_two p a r b : eq_b r p = false -> dict_of [(p, a); (r, b)] = [(p, a); (r, b)].
Proof. intros H. unfold dict_of. cbn [fold_left fst snd dict_set]. rewrite H. reflexivity. Qed.

Lemma reactions_of_app len supports l1 l2 r1 m1 r2 m2 :
  reactions_of len supports l1 = Ok (r1, m1) -> reactions_of len supports l2 = Ok (r2, m2) ->
  exists r m, reactions_of len supports (l1 ++ l2) = Ok (r, m) /\ m = m1 + m2
    /\ forall xi, reaction_sum xi r = reaction_sum xi r1 + reaction_sum xi r2.
Proof.
  intros H1 H2. destruct (is_ss supports) eqn:Hss.
  - destruct (is_ss_shape _ Hss) as (p & q & Hsh).
    assert (Hp : In (pinned p) supports) by (destruct Hsh as [-> | ->]; simpl; auto).
    assert (Hq : In (roller q) supports) by (destruct Hsh as [-> | ->]; simpl; auto).
    destruct (pinned_roller_positions _ _ _ Hss Hp Hq) as [Hnp Hnr].
    unfold reactions_of in *. rewrite Hss in *.
    unfold calculate_reactions_simply_supported, next_position_or, py_div in *.
    rewrite Hnp, Hnr in *. rewrite !load_totals_eq in *.
    destruct (eq_b (q - p) 0) eqn:Hz; [discriminate |].
    assert (Hne : eq_b q p = false).
    { apply eq_b_false. intros ->. apply eq_b_false in Hz. apply Hz. ring. }
    cbn [bind] in *. injection H1 as <- <-. injection H2 as <- <-.
    eexists _, _. split; [reflexivity |]. split; [ring |].
    intros xi. rewrite !dict_of_two by exact Hne.
    unfold reaction_sum, spec_reaction_shear. cbn [fold_right fst snd].
    rewrite F_total_app, M_about_app.
    destruct (ge_b xi p), (ge_b xi q); unfold Qcdiv; ring.
  - destruct (is_cantilever supports) eqn:Hc.
    + destruct (reactions_of_cantilever _ _ _ _ _ Hc H1) as (s0 & -> & -> & ->).
      destruct (reactions_of_cantilever _ _ _ _ _ Hc H2) as (s0' & Hs & -> & ->).
      injection Hs as <-.
      unfold reactions_of. rewrite Hss, Hc. cbn [calculate_reactions_cantilever].
      rewrite load_totals_eq. eexists _, _. split; [reflexivity |].
      rewrite F_total_app, M_about_app. split; [ring |].
      intros xi. unfold reaction_sum, spec_reaction_shear, dict_of.
      cbn [fold_left fold_right fst snd dict_set].
      destruct (ge_b xi (s_position s0)); ring.
    + unfold reactions_of in H1. rewrite Hss, Hc in H1. destruct (_ && _); discriminate.
Qed.

Lemma shear_app x r r1 r2 l1 l2 :
  (forall xi, reaction_sum xi r = reaction_sum xi r1 + reaction_sum xi r2) ->
  shear x r (l1 ++ l2) = vadd (shear x r1 l1) (shear x r2 l2).
Proof.
  intros H. apply (nth_ext _ _ 0 0).
  - rewrite vadd_length, !shear_length. lia.
  - intros i Hi. rewrite shear_length in Hi.
    rewrite vadd_nth by (rewrite shear_length; exact Hi).
    rewrite !shear_nth by exact Hi.
    change (reaction_sum (nth i x 0) r + load_sum (nth i x 0) (l1 ++ l2)
            = reaction_sum (nth i x 0) r1 + load_sum (nth i x 0) l1
              + (reaction_sum (nth i x 0) r2 + load_sum (nth i x 0) l2)).
    rewrite H, load_sum_app. ring.
Qed.

Lemma analyse_app properties supports l1 l2 st1 st2 :
  analyse properties supports l1 = Ok st1 -> analyse properties supports l2 = Ok st2 ->
  exists st, analyse properties supports (l1 ++ l2) = Ok st
    /\ st_grid st = st_grid st1 /\ st_is_cantilever st = st_is_cantilever st1
    /\ st_is_ss st = st_is_ss st1
    /\ st_V st = vadd (st_V st1) (st_V st2) /\ st_M st = vadd (st_M st1) (st_M st2)
    /\ st_slope st = vadd (st_slope st1) (st_slope st2)
    /\ st_deflection_raw st = vadd (st_deflection_raw st1) (st_deflection_raw st2).
Proof.
  intros H1 H2.
  destruct (analyse_lengths _ _ _ _ H1) as (LV1 & LM1 & LS1 & LD1).
  destruct (analyse_lengths _ _ _ _ H2) as (LV2 & LM2 & LS2 & LD2).
  destruct (analyse_same_grid _ _ _ _ _ _ H1 H2) as (Hgrid & _).
  destruct (analyse_ok _ _ _ _ H1)
    as (bp & g & r1 & m1 & Hp & Hg & Hr1 & _ & Hg1 & Hc1 & Hs1 & _ & _ & HV1 & HM1 & HS1 & HD1).
  destruct (analyse_ok _ _ _ _ H2)
    as (bp' & g' & r2 & m2 & Hp' & Hg' & Hr2 & _ & Hg2 & _ & _ & _ & _ & HV2 & HM2 & HS2 & HD2).
  rewrite Hp in Hp'. injection Hp' as <-. rewrite Hg in Hg'. injection Hg' as <-.
  destruct (reactions_of_app _ _ _ _ _ _ _ _ Hr1 Hr2) as (r & m & Hr & -> & Hsum).
  unfold analyse. rewrite Hp. cbn [bind]. rewrite Hg. cbn [bind]. rewrite Hr. cbn [bind].
  cbn [is_none orb]. eexists. split; [reflexivity |].
  cbn [st_grid st_is_cantilever st_is_ss st_V st_M st_slope st_deflection_raw].
  rewrite Hg1, Hc1, Hs1.
  assert (EV : shear (x g) r (l1 ++ l2) = vadd (st_V st1) (st_V st2)).
  { rewrite HV1, HV2. apply shear_app. exact Hsum. }
  assert (EM : vadd (repeat (m1 + m2) (Z.to_nat (num_points g)))
                 (vscale (cumsum (vadd (st_V st1) (st_V st2))) (dx g))
               = vadd (st_M st1) (st_M st2)).
  { rewrite cumsum_vadd by congruence. rewrite vscale_vadd, repeat_add, vadd_swap4.
    rewrite HM1, HM2. reflexivity. }
  assert (ES : vscale (cumsum (map (fun m => m / (E bp * I bp)) (vadd (st_M st1) (st_M st2)))) (dx g)
               = vadd (st_slope st1) (st_slope st2)).
  { rewrite map_div_vadd, cumsum_vadd by (rewrite !length_map; congruence).
    rewrite vscale_vadd, HS1, HS2. reflexivity. }
  assert (ED : vscale (cumsum (vadd (st_slope st1) (st_slope st2))) (dx g)
               = vadd (st_deflection_raw st1) (st_deflection_raw st2)).
  { rewrite cumsum_vadd by congruence. rewrite vscale_vadd, HD1, HD2. reflexivity. }
  rewrite EV, EM, ES, ED. repeat split; reflexivity.
Qed.

Lemma apply_boundary_conditions_length supports c s x d e :
  List.length d = List.length x ->
  apply_boundary_conditions supports c s x d = Ok e -> List.length e = List.length x.
Proof.
  intros Hl. unfold apply_boundary_conditions.
  destruct c; [intros H; injection H as <-; exact Hl |].
  destruct s; [| intros H; injection H as <-; exact Hl].
  destruct (next_position "pinned" supports) as [pp |]; [| discriminate].
  destruct (next_position "roller" supports) as [rp |]; [| discriminate].
  destruct (argmin _) as [ip |]; [| discriminate]. cbn [bind].
  destruct (argmin _) as [ir |]; [| discriminate]. cbn [bind].
  destruct (eq_b _ 0); [discriminate |].
  intros H; injection H as <-. rewrite vsub_length, length_map. lia.
Qed.

Lemma apply_boundary_conditions_add supports c s x d1 d2 e1 e2 :
  List.length d1 = List.length d2 ->
  apply_boundary_conditions supports c s x d1 = Ok e1 ->
  apply_boundary_conditions supports c s x d2 = Ok e2 ->
  apply_boundary_conditions supports c s x (vadd d1 d2) = Ok (vadd e1 e2).
Proof.
  intros Hl. unfold apply_boundary_conditions.
  destruct c; [intros H1 H2; injection H1 as <-; injection H2 as <-; reflexivity |].
  destruct s; [| intros H1 H2; injection H1 as <-; injection H2 as <-; reflexivity].
  destruct (next_position "pinned" supports) as [pp |]; [| discriminate].
  destruct (next_position "roller" supports) as [rp |]; [| discriminate].
  destruct (argmin _) as [ip |]; [| discriminate]. cbn [bind].
  destruct (argmin _) as [ir |]; [| discriminate]. cbn [bind].
  destruct (eq_b _ 0); [discriminate |].
  intros H1 H2; injection H1 as <-; injection H2 as <-. f_equal.
  rewrite !(vadd_nth_eq _ d1 d2 Hl), <- vsub_vadd4. f_equal.
  rewrite <- map_plus. apply map_ext. intros xi. unfold Qcdiv. ring.
Qed.

Lemma dataframe_add x V1 V2 M1 M2 S1 S2 D1 D2 :
  List.length V1 = List.length V2 -> List.length M1 = List.length M2 ->
  List.length S1 = List.length S2 -> List.length D1 = List.length D2 ->
  dataframe x (vadd V1 V2) (vadd M1 M2) (vadd S1 S2) (vadd D1 D2)
  = add_rows (dataframe x V1 M1 S1 D1) (dataframe x V2 M2 S2 D2).
Proof.
  intros HV HM HS HD. unfold add_rows, dataframe.
  rewrite combine_map_same, map_map. apply map_ext. intros i.
  unfold add_row. cbn [fst snd Position_m Shear_Force_N Bending_Moment_Nm Slope_rad Deflection_m].
  rewrite !vadd_nth_eq by assumption. reflexivity.
Qed.

(** Superposition: for the same properties and supports, if [solve_beam]
    succeeds for the load lists [l1] and [l2], it succeeds for [l1 ++ l2],
    and each row of the combined table is the row-wise sum of the two
    tables: same position, shear, moment, slope and corrected deflection
    added. *)
Theorem solve_beam_superposition properties supports l1 l2 rows1 rows2 bp :
  read_properties properties = Ok bp -> E bp * I bp <> 0 ->
  solve_beam properties supports l1 = Ok rows1 ->
  solve_beam properties supports l2 = Ok rows2 ->
  solve_beam properties supports (l1 ++ l2) = Ok (add_rows rows1 rows2).
Proof.
  intros _ _. unfold solve_beam.
  destruct (analyse properties supports l1) as [st1 |] eqn:H1; [| discriminate]. cbn [bind].
  destruct (analyse properties supports l2) as [st2 |] eqn:H2; [| discriminate]. cbn [bind].
  destruct (analyse_app _ _ _ _ _ _ H1 H2)
    as (st & Hst & Hg & Hc & Hs & HV & HM & HS & HD).
  destruct (analyse_same_grid _ _ _ _ _ _ H1 H2) as (Hg2 & Hc2 & Hs2).
  destruct (analyse_lengths _ _ _ _ H1) as (LV1 & LM1 & LS1 & LD1).
  destruct (analyse_lengths _ _ _ _ H2) as (LV2 & LM2 & LS2 & LD2).
  rewrite <- Hg2 in LV2, LM2, LS2, LD2. rewrite <- Hg2, <- Hc2, <- Hs2.
  destruct (apply_boundary_conditions supports (st_is_cantilever st1) (st_is_ss st1)
              (x (st_grid st1)) (st_deflection_raw st1)) as [e1 |] eqn:E1; [| discriminate].
  destruct (apply_boundary_conditions supports (st_is_cantilever st1) (st_is_ss st1)
              (x (st_grid st1)) (st_deflection_raw st2)) as [e2 |] eqn:E2; [| discriminate].
  cbn [bind]. intros R1 R2. injection R1 as <-. injection R2 as <-.
  rewrite Hst. cbn [bind]. rewrite Hg, Hc, Hs, HD.
  assert (LD : List.length (st_deflection_raw st1) = List.length (st_deflection_raw st2))
    by congruence.
  rewrite (apply_boundary_conditions_add _ _ _ _ _ _ _ _ LD E1 E2).
  cbn [bind]. rewrite HV, HM, HS. f_equal.
  apply dataframe_add; try congruence.
  rewrite (apply_boundary_conditions_length _ _ _ _ _ _ LD1 E1).
  rewrite (apply_boundary_conditions_length _ _ _ _ _ _ LD2 E2). reflexivity.
Qed.

Lemma solve_beam_superposition_witness :
  read_properties (beam (qc (1 # 50)))
    = Ok {| length := qc (1 # 50); E := qc 200000000000; I := qc (83 # 1000000) |}
  /\ qc 200000000000 * qc (83 # 1000000) <> 0
  /\ exists rows1 rows2,
    solve_beam (beam (qc (1 # 50))) [pinned 0; roller (qc (1 # 50))]
      [Point (qc (-10)) (qc (1 # 100))] = Ok rows1
    /\ solve_beam (beam (qc (1 # 50))) [pinned 0; roller (qc (1 # 50))]
      [Distributed (qc (-5)) (qc (1 # 200)) (qc (3 # 200))] = Ok rows2
    /\ solve_beam (beam (qc (1 # 50))) [pinned 0; roller (qc (1 # 50))]
      ([Point (qc (-10)) (qc (1 # 100))] ++ [Distributed (qc (-5)) (qc (1 # 200)) (qc (3 # 200))])
       = Ok (add_rows rows1 rows2).
Proof.
  assert (HEI : qc 200000000000 * qc (83 # 1000000) <> 0) by qc_neq_tac.
  split; [reflexivity |]. split; [exact HEI |].
  destruct (solve_beam (beam (qc (1 # 50))) [pinned 0; roller (qc (1 # 50))]
      [Point (qc (-10)) (qc (1 # 100))]) as [rows1 | e] eqn:H1;
    [| vm_compute in H1; discriminate].
  destruct (solve_beam (beam (qc (1 # 50))) [pinned 0; roller (qc (1 # 50))]
      [Distributed (qc (-5)) (qc (1 # 200)) (qc (3 # 200))]) as [rows2 | e] eqn:H2;
    [| vm_compute in H2; discriminate].
  exists rows1, rows2. split; [reflexivity | split; [reflexivity |]].
  exact (solve_beam_superposition (beam (qc (1 # 50))) _ _ _ _ _
           {| length := qc (1 # 50); E := qc 200000000000; I := qc (83 # 1000000) |}
           eq_refl HEI H1 H2).
Defined.

(* ------------------------------------------------------------------------- *)
(** ** Properties of [run_pipeline] *)

Lemma config_inputs_none cfg :
  cfg_beam_properties cfg = None
  \/ cfg_beam_properties cfg = Some ({| prop_length := None; prop_E := None; prop_I := None |}, false)
  \/ cfg_supports cfg = None \/ cfg_supports cfg = Some []
  \/ cfg_loads cfg = None \/ cfg_loads cfg = Some []
  \/ cfg_analysis_tasks cfg = None \/ cfg_analysis_tasks cfg = Some [] ->
  config_inputs cfg = None.
Proof.
  destruct cfg as [bp sp ld ts od]. unfold config_inputs. cbn.
  intros H. destruct H as [H | [H | [H | [H | [H | [H | [H | H]]]]]]]; subst;
  unfold properties_truthy; cbn;
  repeat match goal with |- context [match ?x with _ => _ end] => destruct x end;
  reflexivity.
Qed.

Lemma config_inputs_tasks cfg p s l ts :
  config_inputs cfg = Some (p, s, l, ts) -> cfg_analysis_tasks cfg = Some ts.
Proof.
  destruct cfg as [bp sp ld tks od]. unfold config_inputs. cbn.
  destruct bp as [bp |], sp as [[| ? ?] |], ld as [[| ? ?] |], tks as [[| ? ?] |]; try discriminate.
  destruct (properties_truthy bp); intros H; inversion H; reflexivity.
Qed.

(** A configuration that lacks one of [beam_properties], [supports], [loads]
    and [analysis_tasks], or whose value there is empty, makes
    [run_pipeline] raise [ConfigError] without running the solver or any
    task.  The output directory is handled first: it is created when it is
    missing (and stays created), and a failure to create it raises the
    directory [AnalysisError] instead. *)
Theorem incomplete_config_raises_config_error e cfg gui_mode :
  cfg_beam_properties cfg = None
  \/ cfg_beam_properties cfg = Some ({| prop_length := None; prop_E := None; prop_I := None |}, false)
  \/ cfg_supports cfg = None \/ cfg_supports cfg = Some []
  \/ cfg_loads cfg = None \/ cfg_loads cfg = Some []
  \/ cfg_analysis_tasks cfg = None \/ cfg_analysis_tasks cfg = Some [] ->
  run_pipeline e cfg gui_mode =
    (if dir_exists e (output_dir_of cfg) then ([], Raised ConfigError)
     else if makedirs_ok e (output_dir_of cfg) then ([MadeDir (output_dir_of cfg)], Raised ConfigError)
     else ([], Raised (OutputDirError (output_dir_of cfg)))).
Proof.
  intros H. apply config_inputs_none in H.
  unfold run_pipeline, prepare_output_dir.
  destruct (dir_exists e (output_dir_of cfg)); [| destruct (makedirs_ok e (output_dir_of cfg))];
  cbn iota beta; rewrite ?H; reflexivity.
Qed.

(** When the solver raises, [run_pipeline] raises [AnalysisError] ("Beam
    solver failed") carrying the solver's exception, and no task runs: no
    plot, CSV or report is written.  As before, a failure to create the
    output directory is raised first. *)
Theorem solver_failure_raises_analysis_error e cfg gui_mode p s l ts err :
  config_inputs cfg = Some (p, s, l, ts) ->
  solve_beam p s l = Err err ->
  run_pipeline e cfg gui_mode =
    (if dir_exists e (output_dir_of cfg) then ([], Raised (SolverFailed err))
     else if makedirs_ok e (output_dir_of cfg)
          then ([MadeDir (output_dir_of cfg)], Raised (SolverFailed err))
     else ([], Raised (OutputDirError (output_dir_of cfg)))).
Proof.
  intros Hc Hs. unfold run_pipeline, prepare_output_dir.
  destruct (dir_exists e (output_dir_of cfg)); [| destruct (makedirs_ok e (output_dir_of cfg))];
  cbn iota beta; rewrite ?Hc, ?Hs; reflexivity.
Qed.

Lemma append_plot_not_results s : String.append s "_plot" <> "beam_results_df"%string.
Proof.
  intros H.
  do 15 (destruct s as [| ? s]; [discriminate | injection H as _ H]).
  destruct s; discriminate.
Qed.

Lemma str_dict_set_Forall {V} (Q : V -> Prop) k v d :
  Forall (fun kv => Q (snd kv)) d -> Q v -> Forall (fun kv => Q (snd kv)) (str_dict_set k v d).
Proof.
  intros Hd Hv. induction Hd as [| [k' v'] t Hh Ht IH]; cbn; [constructor; auto |].
  destruct (String.eqb k k'); constructor; auto.
Qed.

Lemma run_tasks_gui e d rows i plots rest ts :
  Forall (fun kv => exists params name, snd kv = GuiPlot rows params name) rest ->
  exists rest',
    snd (run_tasks e d rows true i plots (("beam_results_df"%string, GuiTable rows) :: rest) ts)
      = ("beam_results_df"%string, GuiTable rows) :: rest'
    /\ Forall (fun kv => exists params name, snd kv = GuiPlot rows params name) rest'.
Proof.
  revert i plots rest. induction ts as [| t ts IH]; intros i plots rest Hrest.
  - exists rest. split; [reflexivity | exact Hrest].
  - cbn [run_tasks].
    destruct (negb _); [apply IH; exact Hrest |].
    destruct (String.eqb _ "plot").
    + destruct (p_y_col _) as [y |]; [| apply IH; exact Hrest].
      cbn [str_dict_set].
      destruct (String.eqb (String.append _ "_plot") "beam_results_df") eqn:Hk.
      { apply String.eqb_eq in Hk. destruct (append_plot_not_results _ Hk). }
      match goal with
      | |- exists r, snd (let '(_, _) := ?rt in _) = _ /\ _ =>
          destruct rt as [evs gui] eqn:Hr
      end.
      edestruct IH as (rest' & Hg & Hf); [| rewrite Hr in Hg; exists rest'; exact (conj Hg Hf)].
      apply (str_dict_set_Forall (fun g => exists params name, g = GuiPlot rows params name));
        [exact Hrest | eauto].
    + destruct (String.eqb _ "save_csv");
      [| destruct (String.eqb _ "save_html_report"); [| apply IH; exact Hrest]];
      match goal with
      | |- exists r, snd (let '(_, _) := ?rt in _) = _ /\ _ =>
          destruct rt as [evs gui] eqn:Hr
      end;
      (edestruct IH as (rest' & Hg & Hf); [exact Hrest | rewrite Hr in Hg; exists rest'; exact (conj Hg Hf)]).
Qed.

(** Once the solver has succeeded (and the output directory is in place),
    [run_pipeline] returns whatever the tasks do: [None] outside GUI mode;
    in GUI mode a dict whose first entry is ['beam_results_df'] holding the
    solver's table, every other entry being a plot entry over that same
    table (a plot key ends in ["_plot"], so it never overwrites the table). *)
Theorem pipeline_success_result e cfg gui_mode p s l ts rows :
  config_inputs cfg = Some (p, s, l, ts) ->
  solve_beam p s l = Ok rows ->
  dir_exists e (output_dir_of cfg) || makedirs_ok e (output_dir_of cfg) = true ->
  exists evs,
    (gui_mode = false /\ run_pipeline e cfg gui_mode = (evs, Returned None))
    \/ (gui_mode = true /\ exists rest,
          run_pipeline e cfg gui_mode
            = (evs, Returned (Some (("beam_results_df"%string, GuiTable rows) :: rest)))
          /\ Forall (fun kv => exists params name, snd kv = GuiPlot rows params name) rest).
Proof.
  intros Hc Hs Hd. unfold run_pipeline, prepare_output_dir.
  assert (Hdir : exists ev0, (if dir_exists e (output_dir_of cfg) then ([], None)
                 else if makedirs_ok e (output_dir_of cfg)
                      then ([MadeDir (output_dir_of cfg)], None)
                      else ([], Some (OutputDirError (output_dir_of cfg))))
                 = (ev0, None : option pipeline_error)).
  { destruct (dir_exists _ _); [eauto |]. destruct (makedirs_ok _ _); [eauto | discriminate]. }
  destruct Hdir as (ev0 & ->). cbn iota beta. rewrite Hc, Hs.
  destruct gui_mode.
  - destruct (run_tasks_gui e (output_dir_of cfg) rows 0 [] [] ts (Forall_nil _)) as (rest & Hg & Hf).
    destruct (run_tasks e (output_dir_of cfg) rows true 0 [] _ ts) as [evs gui] eqn:Hr.
    cbn in Hg. subst gui. exists (ev0 ++ evs). right. split; [reflexivity |].
    exists rest. split; [reflexivity | exact Hf].
  - destruct (run_tasks e (output_dir_of cfg) rows false 0 [] [] ts) as [evs gui].
    exists (ev0 ++ evs). left. split; reflexivity.
Qed.

(** A plot task whose [y_col] is not a column of the table writes no image,
    yet its path is still entered in [generated_plot_paths]: a report task
    that follows lists it (under the plot's title, by default the task name,
    itself by default ["Task <i+1>"]). *)
Theorem missing_column_plot_listed_in_report e d rows gui_mode i plots gui t h rest params y o o' :
  t_type t = Some "plot"%string -> t_output t = Some o -> o <> EmptyString ->
  t_params t = Some params -> p_y_col params = Some y -> str_in y columns = false ->
  t_type h = Some "save_html_report"%string -> t_output h = Some o' -> o' <> EmptyString ->
  write_ok e (path_join d o') = true ->
  exists gui',
    fst (run_tasks e d rows gui_mode i plots gui (t :: h :: rest))
    = HtmlReport (path_join d o')
        (str_dict_set (str_default (p_title params)
                         (str_default (t_name t) (String.append "Task " (string_of_nat (S i)))))
                      (path_join d o) plots) rows
      :: fst (run_tasks e d rows gui_mode (S (S i))
               (str_dict_set (str_default (p_title params)
                                (str_default (t_name t) (String.append "Task " (string_of_nat (S i)))))
                             (path_join d o) plots) gui' rest).
Proof.
  intros Ht Ho Ho0 Hp Hy Hcol Hh Ho' Ho'0 Hw.
  cbn [run_tasks]. rewrite Ht, Ho, Hh, Ho', Hp, Hy. cbn [str_default py_str_truthy].
  apply String.eqb_neq in Ho0, Ho'0. rewrite Ho0, Ho'0. cbn [negb andb String.eqb].
  unfold plot_line_chart. rewrite Hcol. cbn [negb].
  change (String.eqb "save_html_report" "plot") with false.
  change (String.eqb "save_html_report" "save_csv") with false.
  change (String.eqb "save_html_report" "save_html_report") with true.
  change (String.eqb "plot" "plot") with true.
  cbn iota beta.
  unfold save_html_report. rewrite Hw.
  match goal with
  | |- context [run_tasks e d rows gui_mode (S (S i)) ?pl ?gg rest] =>
      exists gg; destruct (run_tasks e d rows gui_mode (S (S i)) pl gg rest); reflexivity
  end.
Qed.

(** Where [fig.savefig] writes, on a few names: an extensionless name, a
    trailing dot, a hidden file and a dotted directory get ['.png'];
    a name with an extension is kept as it is. *)
Lemma savefig_path_examples :
  savefig_path "output/deflection" = "output/deflection.png"%string
  /\ savefig_path "output/deflection." = "output/deflection.png"%string
  /\ savefig_path "output/.hidden" = "output/.hidden.png"%string
  /\ savefig_path "out.d/plot" = "out.d/plot.png"%string
  /\ savefig_path "output/deflection.PNG" = "output/deflection.PNG"%string
  /\ snd (savefig_target "output/deflection.PNG") = "png"%string.
Proof. vm_compute. repeat split. Qed.

Lemma run_tasks_paths e d rows gui_mode i plots gui ts ev :
  In ev (fst (run_tasks e d rows gui_mode i plots gui ts)) ->
  exists t o, In t ts /\ t_output t = Some o /\ o <> EmptyString
    /\ ((t_type t = Some "plot"%string /\ event_path ev = savefig_path (path_join d o))
        \/ ((t_type t = Some "save_csv"%string \/ t_type t = Some "save_html_report"%string)
            /\ event_path ev = path_join d o)).
Proof.
  revert i plots gui. induction ts as [| t ts IH]; intros i plots gui Hin; [destruct Hin |].
  assert (Hrest : forall i plots gui, In ev (fst (run_tasks e d rows gui_mode i plots gui ts)) ->
            exists t' o', In t' (t :: ts) /\ t_output t' = Some o' /\ o' <> EmptyString
              /\ ((t_type t' = Some "plot"%string /\ event_path ev = savefig_path (path_join d o'))
                  \/ ((t_type t' = Some "save_csv"%string
                       \/ t_type t' = Some "save_html_report"%string)
                      /\ event_path ev = path_join d o'))).
  { intros i' p' g' H. destruct (IH _ _ _ H) as (t' & o' & ? & ? & ? & ?).
    exists t', o'. simpl. tauto. }
  cbn [run_tasks] in Hin.
  destruct (py_str_truthy (t_type t) && py_str_truthy (t_output t)) eqn:Htr; cbn [negb] in Hin;
    [| exact (Hrest _ _ _ Hin)].
  apply andb_true_iff in Htr as [Hty Hout].
  destruct (t_type t) as [ty |] eqn:Hty'; [| discriminate].
  destruct (t_output t) as [o |] eqn:Ho; [| discriminate].
  unfold py_str_truthy in Hout. apply negb_true_iff, String.eqb_neq in Hout.
  cbn [str_default] in Hin.
  assert (Hhere : forall ty', ty = ty' ->
            (ty' = "plot"%string /\ event_path ev = savefig_path (path_join d o))
            \/ ((ty' = "save_csv"%string \/ ty' = "save_html_report"%string)
                /\ event_path ev = path_join d o) ->
            exists t' o', In t' (t :: ts) /\ t_output t' = Some o' /\ o' <> EmptyString
              /\ ((t_type t' = Some "plot"%string /\ event_path ev = savefig_path (path_join d o'))
                  \/ ((t_type t' = Some "save_csv"%string
                       \/ t_type t' = Some "save_html_report"%string)
                      /\ event_path ev = path_join d o'))).
  { intros ty' <- Hk. exists t, o. rewrite Hty'.
    split; [left; reflexivity |]. split; [exact Ho |]. split; [exact Hout |].
    destruct Hk as [[-> Hp] | [[-> | ->] Hp]]; auto. }
  destruct (String.eqb_spec ty "plot") as [Hpl | _].
  { destruct (p_y_col _) as [y |]; [| exact (Hrest _ _ _ Hin)].
    destruct (run_tasks _ _ _ _ _ _ _ ts) as [evs gui'] eqn:Hr. cbn [fst] in Hin.
    apply in_app_or in Hin as [Hin | Hin].
    - unfold plot_line_chart in Hin.
      destruct (negb _); [destruct Hin |].
      destruct (String.eqb _ EmptyString); [destruct Hin |].
      destruct (savefig_target (path_join d o)) as [path fmt] eqn:Hst.
      destruct (savefig_supported _ _ && write_ok _ _); [| destruct Hin].
      destruct Hin as [<- | []]. apply (Hhere "plot"%string); [exact Hpl |].
      left. split; [reflexivity |]. unfold savefig_path. rewrite Hst. reflexivity.
    - eapply Hrest. rewrite Hr. exact Hin. }
  destruct (String.eqb_spec ty "save_csv") as [Hcs | _].
  { destruct (run_tasks _ _ _ _ _ _ _ ts) as [evs gui'] eqn:Hr. cbn [fst] in Hin.
    apply in_app_or in Hin as [Hin | Hin].
    - unfold save_output in Hin. destruct (write_ok _ _); [| destruct Hin].
      destruct Hin as [<- | []]. apply (Hhere "save_csv"%string); auto.
    - eapply Hrest. rewrite Hr. exact Hin. }
  destruct (String.eqb_spec ty "save_html_report") as [Hht | _]; [| exact (Hrest _ _ _ Hin)].
  destruct (run_tasks _ _ _ _ _ _ _ ts) as [evs gui'] eqn:Hr. cbn [fst] in Hin.
  apply in_app_or in Hin as [Hin | Hin].
  - unfold save_html_report in Hin. destruct (write_ok _ _); [| destruct Hin].
    destruct Hin as [<- | []]. apply (Hhere "save_html_report"%string); auto.
  - eapply Hrest. rewrite Hr. exact Hin.
Qed.

(** [run_pipeline] writes only where its configuration says: apart from
    creating the output directory, every file it writes belongs to one of
    the configured tasks, which has a non-empty [output].  A ['plot'] task
    writes its image where [fig.savefig] puts
    [os.path.join(output_dir, output)], i.e. at that path with ['.png']
    appended when it has no extension; a ['save_csv'] or
    ['save_html_report'] task writes at [os.path.join(output_dir, output)]
    itself.  A task without a type or an output, or of any other type,
    writes nothing. *)
Theorem pipeline_writes_only_task_outputs e cfg gui_mode ev :
  In ev (fst (run_pipeline e cfg gui_mode)) ->
  ev = MadeDir (output_dir_of cfg)
  \/ exists ts t o, cfg_analysis_tasks cfg = Some ts /\ In t ts /\ t_output t = Some o
       /\ o <> EmptyString
       /\ ((t_type t = Some "plot"%string
            /\ event_path ev = savefig_path (path_join (output_dir_of cfg) o))
           \/ ((t_type t = Some "save_csv"%string \/ t_type t = Some "save_html_report"%string)
               /\ event_path ev = path_join (output_dir_of cfg) o)).
Proof.
  unfold run_pipeline.
  destruct (prepare_output_dir e (output_dir_of cfg)) as [ev0 err0] eqn:Hprep.
  assert (H0 : In ev ev0 -> ev = MadeDir (output_dir_of cfg)).
  { unfold prepare_output_dir in Hprep.
    destruct (dir_exists _ _); [| destruct (makedirs_ok _ _)]; injection Hprep as <- _;
    intros Hin; cbn in Hin; intuition congruence. }
  destruct err0 as [err |]; [cbn [fst]; intros Hin; left; exact (H0 Hin) |].
  destruct (config_inputs cfg) as [[[[p s] l] ts] |] eqn:Hc;
    [| cbn [fst]; intros Hin; left; exact (H0 Hin)].
  destruct (solve_beam p s l) as [rows |]; [| cbn [fst]; intros Hin; left; exact (H0 Hin)].
  destruct (run_tasks _ _ _ _ _ _ _ ts) as [evs gui] eqn:Hr. cbn [fst].
  intros Hin. apply in_app_or in Hin as [Hin | Hin]; [left; exact (H0 Hin) |].
  right. pose proof (f_equal fst Hr) as Hf. cbn [fst] in Hf. rewrite <- Hf in Hin.
  destruct (run_tasks_paths _ _ _ _ _ _ _ _ _ Hin) as (t & o & ? & ? & ? & ?).
  exists ts, t, o. rewrite (config_inputs_tasks _ _ _ _ _ Hc). repeat split; auto.
Qed.

Lemma incomplete_config_raises_config_error_witness :
  run_pipeline example_env (example_config [pinned 0; roller (qc (1 # 50))] None) false
  = ([MadeDir "output/"%string], Raised ConfigError).
Proof.
  rewrite incomplete_config_raises_config_error; [reflexivity |].
  do 6 right. left. reflexivity.
Defined.

Lemma solver_failure_raises_analysis_error_witness :
  run_pipeline example_env
    (example_config [roller 0; roller (qc (1 # 50))] (Some [example_csv_task])) true
  = ([MadeDir "output/"%string], Raised (SolverFailed (AnalysisError UnstableStructure))).
Proof.
  rewrite (solver_failure_raises_analysis_error example_env
             (example_config [roller 0; roller (qc (1 # 50))] (Some [example_csv_task])) true
             (beam (qc (1 # 50))) [roller 0; roller (qc (1 # 50))]
             [Point (qc (-10)) (qc (1 # 100))] [example_csv_task] (AnalysisError UnstableStructure)
             eq_refl ltac:(vm_compute; reflexivity)).
  reflexivity.
Defined.

Lemma pipeline_success_result_witness :
  exists rows,
    solve_beam (beam (qc (1 # 50))) [pinned 0; roller (qc (1 # 50))]
      [Point (qc (-10)) (qc (1 # 100))] = Ok rows
    /\ exists evs,
      (true = false /\ run_pipeline example_env
         (example_config [pinned 0; roller (qc (1 # 50))]
            (Some [example_plot_task; example_csv_task; example_report_task])) true
         = (evs, Returned None))
      \/ (true = true /\ exists rest,
            run_pipeline example_env
              (example_config [pinned 0; roller (qc (1 # 50))]
                 (Some [example_plot_task; example_csv_task; example_report_task])) true
            = (evs, Returned (Some (("beam_results_df"%string, GuiTable rows) :: rest)))
            /\ Forall (fun kv => exists params name, snd kv = GuiPlot rows params name) rest).
Proof.
  destruct (solve_beam (beam (qc (1 # 50))) [pinned 0; roller (qc (1 # 50))]
      [Point (qc (-10)) (qc (1 # 100))]) as [rows | err] eqn:H; [| vm_compute in H; discriminate].
  exists rows. split; [reflexivity |].
  exact (pipeline_success_result example_env
           (example_config [pinned 0; roller (qc (1 # 50))]
              (Some [example_plot_task; example_csv_task; example_report_task])) true
           _ _ _ _ rows eq_refl H eq_refl).
Defined.

Lemma missing_column_plot_listed_in_report_witness :
  fst (run_tasks example_env "output/" [] false 0 [] []
         [example_bad_plot_task; example_report_task])
  = [HtmlReport "output/report.html" [("Task 1"%string, "output/moment.png"%string)] []].
Proof.
  destruct (missing_column_plot_listed_in_report example_env "output/" [] false 0 [] []
              example_bad_plot_task example_report_task []
              {| p_y_col := Some "Moment"%string; p_title := None; p_ylabel := None |}
              "Moment" "moment.png" "report.html"
              eq_refl eq_refl ltac:(discriminate) eq_refl eq_refl eq_refl
              eq_refl eq_refl ltac:(discriminate) eq_refl) as [g Hg].
  rewrite Hg. reflexivity.
Defined.

Lemma pipeline_writes_only_task_outputs_witness :
  exists ev,
    In ev (fst (run_pipeline example_env
                  (example_config [pinned 0; roller (qc (1 # 50))]
                     (Some [example_plot_task; example_csv_task; example_report_task])) false))
    /\ (ev = MadeDir "output/"%string
        \/ exists ts t o,
             cfg_analysis_tasks (example_config [pinned 0; roller (qc (1 # 50))]
                                   (Some [example_plot_task; example_csv_task; example_report_task]))
               = Some ts
             /\ In t ts /\ t_output t = Some o /\ o <> EmptyString
             /\ ((t_type t = Some "plot"%string
                  /\ event_path ev = savefig_path (path_join "output/" o))
                 \/ ((t_type t = Some "save_csv"%string
                      \/ t_type t = Some "save_html_report"%string)
                     /\ event_path ev = path_join "output/" o))).
Proof.
  assert (Hin : In (nth 2 (fst (run_pipeline example_env
                  (example_config [pinned 0; roller (qc (1 # 50))]
                     (Some [example_plot_task; example_csv_task; example_report_task])) false))
                  (MadeDir EmptyString))
                (fst (run_pipeline example_env
                  (example_config [pinned 0; roller (qc (1 # 50))]
                     (Some [example_plot_task; example_csv_task; example_report_task])) false)))
    by (apply nth_In; vm_compute; lia).
  eexists. split; [exact Hin | exact (pipeline_writes_only_task_outputs _ _ _ _ Hin)].
Defined.
